(** * Mutation-score report parsers of the analyzer package

    A shallow embedding of [analyzer/tools.py] (the four report parsers
    [Judy], [Jumble], [Major], [Pit] and the tool registry) and of
    [analyzer/utility.py] ([read_config]), followed by the properties of
    the score records they produce.

    Conventions of the embedding:
    - a Python [str] is a [string]; algorithms that walk a text character
      by character do so on its [list ascii] (code points below 256);
    - a Python [int] is a [Z];
    - a Python [float] is an element of the carrier of [PyArith], the
      interface of the two float operations the parsers use (true division
      of two ints and [round(x, ndigits)]);
    - a function that may raise returns a [result]: [Ok v] for [return v],
      [Raise e] for an exception [e] that leaves the function;
    - file access ([_get_output_text]) and the decoders of the standard
      library and of pandas ([json.loads], [ET.fromstring], [pd.read_csv])
      are outside the embedding: a parser takes the decoded document. *)

From Stdlib Require Import ZArith QArith String Ascii List Lia.
From stdpp Require Import base option list gmap strings.

Local Open Scope string_scope.
Local Open Scope list_scope.
Local Open Scope Z_scope.

(** ** Exceptions and results *)

Inductive exn : Type :=
| AssertionError (msg : string)
| RuntimeError (msg : string)
| ValueError (msg : string)
| KeyError (key : option string)
| IndexError
| AttributeError
| ZeroDivisionError
| OverflowError.

Inductive result (A : Type) : Type :=
| Ok (a : A)
| Raise (e : exn).

Arguments Ok {A} a.
Arguments Raise {A} e.

Definition bind {A B : Type} (m : result A) (k : A -> result B) : result B :=
  match m with
  | Ok a => k a
  | Raise e => Raise e
  end.

Notation "'do' x <- m ; k" := (bind m (fun x => k))
  (at level 10, x name, m at level 100, k at level 200).

(** ** Regular expressions

    The patterns of the source are sequences of literal characters and of
    character classes, the classes possibly under a greedy [*] or [+].
    [match_here] is the backtracking matcher of Python's [re] on such
    patterns: a repetition first takes the longest run and gives characters
    back one at a time until the rest of the pattern matches.  It returns
    the text matched by each atom and the text after the match. *)

Inductive atom : Type :=
| Lit (c : ascii)
| One (cls : ascii -> bool)
| Star (cls : ascii -> bool)
| Plus (cls : ascii -> bool).

Definition pattern : Type := list atom.

Definition chars (s : string) : list ascii := list_ascii_of_string s.

Definition lits (s : string) : pattern := map Lit (chars s).

Definition in_range (lo hi : N) (c : ascii) : bool :=
  ((lo <=? N_of_ascii c) && (N_of_ascii c <=? hi))%N.

(** [\s], also the characters [str.strip] removes. *)
Definition is_space (c : ascii) : bool :=
  in_range 9 13 c || in_range 28 32 c || in_range 133 133 c
  || in_range 160 160 c.

(** [\d] *)
Definition is_digit (c : ascii) : bool := in_range 48 57 c.

(** [[a-zA-Z.]] *)
Definition is_alpha_dot (c : ascii) : bool :=
  in_range 97 122 c || in_range 65 90 c || in_range 46 46 c.

(** [\w]: the alphanumeric characters and the underscore. *)
Definition is_word (c : ascii) : bool :=
  in_range 48 57 c || in_range 65 90 c || in_range 95 95 c
  || in_range 97 122 c || in_range 170 170 c || in_range 178 179 c
  || in_range 181 181 c || in_range 185 186 c || in_range 188 190 c
  || in_range 192 214 c || in_range 216 246 c || in_range 248 255 c.

(** [[\w ]] *)
Definition is_word_or_blank (c : ascii) : bool :=
  is_word c || in_range 32 32 c.

(** [.] matches everything but the line feed. *)
Definition is_dot (c : ascii) : bool := negb (in_range 10 10 c).

Fixpoint run_length (cls : ascii -> bool) (s : list ascii) : nat :=
  match s with
  | c :: s' => if cls c then S (run_length cls s') else O
  | [] => O
  end.

(** Tries [lo + extra], [lo + extra - 1], ..., [lo] repetitions. *)
Fixpoint backtrack (k : list ascii -> option (list (list ascii) * list ascii))
    (lo extra : nat) (s : list ascii)
    : option (list (list ascii) * list ascii) :=
  match k (drop (lo + extra) s) with
  | Some (segs, rest) => Some (take (lo + extra) s :: segs, rest)
  | None =>
      match extra with
      | O => None
      | S extra' => backtrack k lo extra' s
      end
  end.

Definition single (cond : ascii -> bool)
    (k : list ascii -> option (list (list ascii) * list ascii))
    (s : list ascii) : option (list (list ascii) * list ascii) :=
  match s with
  | c :: s' =>
      if cond c then
        match k s' with
        | Some (segs, rest) => Some ([c] :: segs, rest)
        | None => None
        end
      else None
  | [] => None
  end.

Fixpoint match_here (p : pattern) (s : list ascii)
    : option (list (list ascii) * list ascii) :=
  match p with
  | [] => Some ([], s)
  | Lit c :: p' => single (Ascii.eqb c) (match_here p') s
  | One cls :: p' => single cls (match_here p') s
  | Star cls :: p' => backtrack (match_here p') 0 (run_length cls s) s
  | Plus cls :: p' =>
      match run_length cls s with
      | O => None
      | S extra => backtrack (match_here p') 1 extra s
      end
  end.

(** [p.search(s)]: the leftmost match, as the text before it, the text of
    each atom and the text after it. *)
Fixpoint search (p : pattern) (s : list ascii)
    : option (list ascii * list (list ascii) * list ascii) :=
  match match_here p s with
  | Some (segs, post) => Some ([], segs, post)
  | None =>
      match s with
      | [] => None
      | c :: s' =>
          match search p s' with
          | Some (pre, segs, post) => Some (c :: pre, segs, post)
          | None => None
          end
      end
  end.

(** Length of the match of [p] at the head of [s]. *)
Definition match_length (p : pattern) (s : list ascii) : option nat :=
  match match_here p s with
  | Some (segs, _) => Some (length (concat segs))
  | None => None
  end.

(** [p.subn("", s)] for a pattern that matches no empty text: scans [s]
    from the left, deletes every match and counts them.  [skip] is the
    number of characters of the current match still to delete.  (A match
    of length zero is passed over; the two patterns it is used with have
    none, see [live_mutant_pattern_never_empty] and
    [whitespace_pattern_never_empty].) *)
Fixpoint subn_from (p : pattern) (skip : nat) (s : list ascii)
    : list ascii * nat :=
  match s with
  | [] => ([], O)
  | c :: s' =>
      match skip with
      | S skip' => subn_from p skip' s'
      | O =>
          match match_length p s with
          | Some (S len) =>
              let '(rest, n) := subn_from p len s' in (rest, S n)
          | _ =>
              let '(rest, n) := subn_from p O s' in (c :: rest, n)
          end
      end
  end.

Definition subn (p : pattern) (s : list ascii) : list ascii * nat :=
  subn_from p O s.

(** [re.sub(p, "", s)] *)
Definition sub (p : pattern) (s : list ascii) : list ascii :=
  fst (subn p s).

(** ** Tools *)

Inductive tool_kind : Type := Judy | Jumble | Major | Pit.

(** The class attribute [name] of each tool class. *)
Definition tool_name (k : tool_kind) : string :=
  match k with
  | Judy => "judy"
  | Jumble => "jumble"
  | Major => "major"
  | Pit => "pit"
  end.

(** An instance of a tool class, as [Tool.__init__] builds it. *)
Record Tool : Type := {
  kind : tool_kind;
  project_dir : string;
  class_under_mutation : string
}.

Definition new_tool (k : tool_kind) (project_dir class_under_mutation : string)
    : Tool :=
  {| kind := k;
     project_dir := project_dir;
     class_under_mutation := class_under_mutation |}.

(** ** Python numbers *)

(** The float operations used by the parsers.  [int_truediv a b] is the
    float [a / b] of two ints with [b] non-zero, [None] when the quotient
    is too large for a float; [py_round x n] is [round(x, n)];
    [float_of_int z] is [float(z)]. *)
Class PyArith : Type := {
  pyfloat : Type;
  float_of_int : Z -> pyfloat;
  int_truediv : Z -> Z -> option pyfloat;
  py_round : pyfloat -> Z -> pyfloat
}.

(** What the proofs use of IEEE arithmetic: a quotient of magnitude at
    most [2^1023] fits a float, [0 / b] is [0.0] for positive [b], and
    rounding [0.0] gives [0.0]. *)
Class PyArithLaws (PA : PyArith) : Prop := {
  int_truediv_fits : forall a b : Z,
    b <> 0 -> Z.abs a <= Z.abs b * 2 ^ 1023 -> is_Some (int_truediv a b);
  int_truediv_0_l : forall b : Z,
    0 < b -> int_truediv 0 b = Some (float_of_int 0);
  py_round_0 : forall n : Z,
    py_round (float_of_int 0) n = float_of_int 0
}.

Section Parsers.
Context {PA : PyArith}.

Inductive pynum : Type :=
| PyInt (z : Z)
| PyFloat (x : pyfloat).

(** [a / b] on two ints. *)
Definition py_truediv (a b : Z) : result pyfloat :=
  if b =? 0 then Raise ZeroDivisionError
  else match int_truediv a b with
       | Some q => Ok q
       | None => Raise OverflowError
       end.

(** The float a number compares as; [py_eq] is [==] on numbers whose int
    side is exactly representable. *)
Definition as_float (x : pynum) : pyfloat :=
  match x with
  | PyInt z => float_of_int z
  | PyFloat f => f
  end.

Definition py_eq (x y : pynum) : Prop := as_float x = as_float y.

(** The canonical score record, a dict with these five keys. *)
Record score_dict : Type := {
  killed : Z;
  live : Z;
  all : Z;
  score : pynum;
  score_full : pynum
}.

(** ** Judy: the JSON class report *)

Record judy_class : Type := {
  name : string;
  mutantsCount : Z;
  mutantsKilledCount : Z
}.

Record judy_report : Type := {
  classes : list judy_class
}.

Definition Judy_get_mutation_score (self : Tool) (result_dict : judy_report)
    : result score_dict :=
  let thedict :=
    filter (fun adict => name adict = class_under_mutation self)
           (classes result_dict) in
  if negb (0 <? length thedict)%nat then
    Raise (AssertionError
             (class_under_mutation self +:+ " not found in Judy output!"))
  else if negb (length thedict =? 1)%nat then
    Raise (AssertionError
             (class_under_mutation self
              +:+ " appears multiple times in Judy output!"))
  else
    match thedict with
    | [] => Raise IndexError
    | thedict :: _ =>
        let all_count := mutantsCount thedict in
        let killed_count := mutantsKilledCount thedict in
        let live_count := all_count - killed_count in
        do score_full <- py_truediv killed_count all_count;
        let score := py_round score_full 3 in
        Ok {| killed := killed_count;
              live := live_count;
              all := all_count;
              score := PyFloat score;
              score_full := PyFloat score_full |}
    end.

(** ** Jumble: the console transcript *)

(** [M FAIL:\s*([a-zA-Z.]+):(\d+):\s*(.+)] *)
Definition live_mutant_pattern : pattern :=
  lits "M FAIL:" ++ [Star is_space; Plus is_alpha_dot] ++ lits ":"
  ++ [Plus is_digit] ++ lits ":" ++ [Star is_space; Plus is_dot].

(** [Mutation points = \d+, unit test time limit \d+\.\d+s] *)
Definition start_pattern : pattern :=
  lits "Mutation points = " ++ [Plus is_digit]
  ++ lits ", unit test time limit " ++ [Plus is_digit] ++ lits "."
  ++ [Plus is_digit] ++ lits "s".

(** [Jumbling took \d+\.\d+s] *)
Definition end_pattern : pattern :=
  lits "Jumbling took " ++ [Plus is_digit] ++ lits "." ++ [Plus is_digit]
  ++ lits "s".

(** [Score: \d% \(([\w ]+)]; group 1 is the text of the last atom. *)
Definition error_pattern : pattern :=
  lits "Score: " ++ [One is_digit] ++ lits "% (" ++ [Plus is_word_or_blank].

(** [\s+] *)
Definition whitespace_pattern : pattern := [Plus is_space].

Definition verbose_bash_script : string := "jumble_verbose.sh".

(** The text between the two markers: [text[i:j]] with [i] the end of the
    first start marker and [j] the start of the first end marker after
    it; [None] when a [search] returns [None], which the source meets as
    an [AttributeError] inside the [try] block. *)
Definition Jumble_region (text : list ascii) : option (list ascii) :=
  match search start_pattern text with
  | None => None
  | Some (_, _, after_start) =>
      match search end_pattern after_start with
      | None => None
      | Some (region, _, _) => Some region
      end
  end.

Definition Jumble_error_message (reason : string) : string :=
  "Cannot find start pattern. Jumble message: " +:+ reason
  +:+ String "010" "Try running the verbose script to get more detailed information: "
  +:+ verbose_bash_script.

Definition Jumble_get_mutation_score (text : string) : result score_dict :=
  match Jumble_region (chars text) with
  | None =>
      (* the handler: [error_pattern.search(text).group(1)] *)
      match search error_pattern (chars text) with
      | None => Raise AttributeError
      | Some (_, segs, _) =>
          Raise (RuntimeError
                   (Jumble_error_message
                      (string_of_list_ascii (default [] (last segs)))))
      end
  | Some region =>
      let '(killed_text, live_mutants_count) :=
        subn live_mutant_pattern region in
      let killed_mutants_count :=
        length (sub whitespace_pattern killed_text) in
      let all_count :=
        Z.of_nat live_mutants_count + Z.of_nat killed_mutants_count in
      do score_full <- py_truediv (Z.of_nat killed_mutants_count) all_count;
      let score := py_round score_full 3 in
      Ok {| killed := Z.of_nat killed_mutants_count;
            live := Z.of_nat live_mutants_count;
            all := all_count;
            score := PyFloat score;
            score_full := PyFloat score_full |}
  end.

(** ** Major: the two tables *)

(** A row of [kill.csv]; a cell left empty reads as NaN, here [None]. *)
Record kill_row : Type := {
  kill_MutantNo : Z;
  Status : option string
}.

(** A row of [mutants.log]. *)
Record mutant_row : Type := {
  MutantNo : Z;
  Operator : string;
  From_ : string;
  To_ : string;
  Signature : string;
  LineNumber : Z;
  Description : string
}.

(** [mutants_df.join(kill_df)]: the left join on the index [MutantNo].  A
    row of the left table without a partner is kept once, with a missing
    [Status]; a row with several partners is kept once for each. *)
Definition join (mutants_df : list mutant_row) (kill_df : list kill_row)
    : list (mutant_row * option string) :=
  flat_map
    (fun m =>
       match filter (fun k => kill_MutantNo k = MutantNo m) kill_df with
       | [] => [(m, None)]
       | partners => map (fun k => (m, Status k)) partners
       end)
    mutants_df.

Definition Major_get_mutation_score (kill_df : list kill_row)
    (mutants_df : list mutant_row) : result score_dict :=
  if (length kill_df =? 0)%nat then
    Ok {| killed := 0;
          live := Z.of_nat (length mutants_df);
          all := Z.of_nat (length mutants_df);
          score := PyInt 0;
          score_full := PyInt 0 |}
  else
    let df := join mutants_df kill_df in
    let live_count :=
      Z.of_nat (length (filter (fun row => snd row = Some "LIVE") df)) in
    let all_count := Z.of_nat (length df) in
    let killed_count := all_count - live_count in
    do score <- py_truediv killed_count all_count;
    Ok {| killed := killed_count;
          live := live_count;
          all := all_count;
          score := PyFloat (py_round score 3);
          score_full := PyFloat score |}.

(** ** Pit: the XML mutation list *)

#[local] Set Warnings "-register-all".

Inductive element : Type :=
| Element (tag : string) (attrib : gmap string string)
          (children : list element).

Definition attrib_of (e : element) : gmap string string :=
  match e with Element _ attrib _ => attrib end.

Definition children_of (e : element) : list element :=
  match e with Element _ _ children => children end.

(** [child.get(key)] *)
Definition get (e : element) (key : string) : option string :=
  attrib_of e !! key.

(** [bool_mapper[key]] for [bool_mapper = dict(true=True, false=False)] *)
Definition bool_mapper (key : option string) : result bool :=
  match key with
  | Some k =>
      if String.eqb k "true" then Ok true
      else if String.eqb k "false" then Ok false
      else Raise (KeyError key)
  | None => Raise (KeyError None)
  end.

(** The loop over the children of the root, on the two counters. *)
Fixpoint Pit_count (children : list element) (killed_count live_count : Z)
    : result (Z * Z) :=
  match children with
  | [] => Ok (killed_count, live_count)
  | child :: rest =>
      do killed <- bool_mapper (get child "detected");
      if killed : bool then Pit_count rest (killed_count + 1) live_count
      else Pit_count rest killed_count (live_count + 1)
  end.

Definition Pit_get_mutation_score (tree : element) : result score_dict :=
  do counts <- Pit_count (children_of tree) 0 0;
  let '(killed_count, live_count) := counts in
  let all_count := killed_count + live_count in
  do score_full <- py_truediv killed_count all_count;
  let score := py_round score_full 3 in
  Ok {| killed := killed_count;
        live := live_count;
        all := all_count;
        score := PyFloat score;
        score_full := PyFloat score_full |}.

(** ** The method [_get_mutation_score] of the four classes *)

(** What each tool reads from its output directory. *)
Definition tool_output (k : tool_kind) : Type :=
  match k with
  | Judy => judy_report
  | Jumble => string
  | Major => (list kill_row * list mutant_row)%type
  | Pit => element
  end.

Definition get_mutation_score_dict (self : Tool)
    : tool_output (kind self) -> result score_dict :=
  match kind self as k return tool_output k -> result score_dict with
  | Judy => fun result_dict => Judy_get_mutation_score self result_dict
  | Jumble => fun text => Jumble_get_mutation_score text
  | Major => fun tables => Major_get_mutation_score (fst tables) (snd tables)
  | Pit => fun tree => Pit_get_mutation_score tree
  end.

End Parsers.

(** ** The tool registry *)

(** [repr] of a list of plain strings: ['a', 'b']. *)
Fixpoint repr_items (l : list string) : string :=
  match l with
  | [] => ""
  | [x] => "'" +:+ x +:+ "'"
  | x :: rest => "'" +:+ x +:+ "', " +:+ repr_items rest
  end.

Definition repr_list (l : list string) : string :=
  "[" +:+ repr_items l +:+ "]".

(** The dict [valid_tools], in insertion order. *)
Definition valid_tools (project_dir class_under_mutation : string)
    : list (string * Tool) :=
  map (fun k => (tool_name k, new_tool k project_dir class_under_mutation))
      [Judy; Jumble; Major; Pit].

Fixpoint lookup_key (key : string) (d : list (string * Tool)) : option Tool :=
  match d with
  | [] => None
  | (k, v) :: d' => if String.eqb k key then Some v else lookup_key key d'
  end.

Definition get_tool (tool_name : string)
    (project_dir class_under_mutation : string) : result Tool :=
  let valid_tools := valid_tools project_dir class_under_mutation in
  match lookup_key tool_name valid_tools with
  | None =>
      let msg :=
        "Invalid tool provided: " +:+ tool_name +:+ ". Valid tools are "
        +:+ repr_list (map fst valid_tools) in
      Raise (ValueError msg)
  | Some tool => Ok tool
  end.

(** The list comprehension: the first call that raises ends it. *)
Fixpoint collect (names : list string) (project_dir class_under_mutation : string)
    : result (list Tool) :=
  match names with
  | [] => Ok []
  | name :: rest =>
      do tool <- get_tool name project_dir class_under_mutation;
      do tools <- collect rest project_dir class_under_mutation;
      Ok (tool :: tools)
  end.

Definition get_all_tools (project_dir class_under_mutation : string)
    : result (list Tool) :=
  collect [tool_name Judy; tool_name Jumble; tool_name Major; tool_name Pit]
          project_dir class_under_mutation.

(** ** The key=value reader *)

(** [f.readlines()]: the lines of the text, each with its line feed. *)
Fixpoint readlines (s : list ascii) : list (list ascii) :=
  match s with
  | [] => []
  | c :: s' =>
      if Ascii.eqb c "010" then [c] :: readlines s'
      else match readlines s' with
           | [] => [[c]]
           | line :: lines => (c :: line) :: lines
           end
  end.

Fixpoint lstrip (s : list ascii) : list ascii :=
  match s with
  | c :: s' => if is_space c then lstrip s' else s
  | [] => []
  end.

(** [s.strip()] *)
Definition strip (s : list ascii) : list ascii :=
  reverse (lstrip (reverse (lstrip s))).

Fixpoint starts_with (p s : list ascii) : bool :=
  match p, s with
  | [], _ => true
  | a :: p', b :: s' => Ascii.eqb a b && starts_with p' s'
  | _ :: _, [] => false
  end.

(** The text before and after the first occurrence of [sep]. *)
Fixpoint split_first (sep : list ascii) (s : list ascii)
    : option (list ascii * list ascii) :=
  if starts_with sep s then Some ([], drop (length sep) s)
  else match s with
       | [] => None
       | c :: s' =>
           match split_first sep s' with
           | Some (before, after) => Some (c :: before, after)
           | None => None
           end
       end.

(** [s.split(sep, maxsplit=1)] *)
Definition split_maxsplit1 (s sep : list ascii) : result (list (list ascii)) :=
  match sep with
  | [] => Raise (ValueError "empty separator")
  | _ :: _ =>
      match split_first sep s with
      | Some (before, after) => Ok [before; after]
      | None => Ok [s]
      end
  end.

(** One turn of the loop of [read_config] on the dict [res]. *)
Definition read_config_line (separator : string) (res : gmap string string)
    (line : list ascii) : result (gmap string string) :=
  let line := strip line in
  if (length line =? 0)%nat || starts_with (chars "#") line then Ok res
  else
    do splitted <- split_maxsplit1 (strip line) (chars separator);
    if (length splitted <? 2)%nat then Ok res
    else
      match map strip splitted with
      | [key; value] =>
          Ok (<[string_of_list_ascii key := string_of_list_ascii value]> res)
      | _ => Raise (ValueError "too many values to unpack")
      end.

Fixpoint read_config_loop (separator : string) (res : gmap string string)
    (lines : list (list ascii)) : result (gmap string string) :=
  match lines with
  | [] => Ok res
  | line :: rest =>
      do res' <- read_config_line separator res line;
      read_config_loop separator res' rest
  end.

Definition read_config (text : string) (separator : string)
    : result (gmap string string) :=
  read_config_loop separator ∅ (readlines (chars text)).

(** ** Exact arithmetic

    An instance of [PyArith] on the rationals: the quotient is exact and
    [round] rounds the exact value to the nearest multiple of [10^-n], a
    tie to the even one.  It evaluates the examples, and is not the
    arithmetic of Python's floats: there the quotient is rounded to a
    double before [round] sees it, and it can be too large ([round(1/80,
    3)] is [0.013] in Python and [3/250] here).  The theorems are stated
    for every [PyArith]; the examples are chosen away from ties. *)

Definition round_half_even (q : Q) : Z :=
  let n := Qnum q in
  let d := Zpos (Qden q) in
  match (2 * (n mod d) ?= d) with
  | Lt => n / d
  | Gt => n / d + 1
  | Eq => if Z.even (n / d) then n / d else n / d + 1
  end.

Definition exact_round (q : Q) (ndigits : Z) : Q :=
  if 0 <=? ndigits then
    Qred (inject_Z (round_half_even (q * inject_Z (10 ^ ndigits)))
          / inject_Z (10 ^ ndigits))
  else
    Qred (inject_Z (round_half_even (q / inject_Z (10 ^ (- ndigits)))
                    * 10 ^ (- ndigits))).

Definition exact_truediv (a b : Z) : option Q :=
  Some (Qred (inject_Z a / inject_Z b)).

#[export] Instance exact_arith : PyArith := {|
  pyfloat := Q;
  float_of_int := inject_Z;
  int_truediv := exact_truediv;
  py_round := exact_round
|}.

(** ** Readings of the specification, to compare the code with *)

(** Patterns that match no empty text. *)
Definition never_empty (p : pattern) : Prop :=
  forall s segs rest, match_here p s = Some (segs, rest) -> concat segs <> [].

(** [deletes p s n t]: deleting from [s], left to right, the [n] matches
    of [p] that do not overlap leaves [t]. *)
Inductive deletes (p : pattern) : list ascii -> nat -> list ascii -> Prop :=
| deletes_none (s : list ascii) :
    search p s = None -> deletes p s O s
| deletes_match (s pre post t : list ascii) (segs : list (list ascii))
    (n : nat) :
    search p s = Some (pre, segs, post) ->
    concat segs <> [] ->
    deletes p post n t ->
    deletes p s (S n) (pre ++ t).

(** The characters of [s] that are not white space. *)
Definition non_space (s : list ascii) : list ascii :=
  filter (fun c => is_space c = false) s.

(** The lines of a text, without their line feeds. *)
Fixpoint lines_of (s : list ascii) : list (list ascii) :=
  match s with
  | [] => [[]]
  | c :: s' =>
      if Ascii.eqb c "010" then [] :: lines_of s'
      else match lines_of s' with
           | [] => [[c]]
           | line :: lines => (c :: line) :: lines
           end
  end.

(** The counts by whole lines: a line that [is_live] is a live mutant, the
    characters of the other lines that are not white space are the killed
    ones. *)
Definition counts_by_line (is_live : list ascii -> bool) (region : list ascii)
    : nat * nat :=
  (length (non_space (concat (filter (fun l => is_live l = false)
                                     (lines_of region)))),
   length (filter (fun l => is_live l = true) (lines_of region))).

(** A line is a live-mutant line when the pattern matches at its start,
    or when the pattern is found somewhere in it. *)
Definition matches_at_start (line : list ascii) : bool :=
  bool_decide (is_Some (match_here live_mutant_pattern line)).

Definition matches_somewhere (line : list ascii) : bool :=
  bool_decide (is_Some (search live_mutant_pattern line)).

(** The key and the value a line of a config file gives, following the
    parsing contract: nothing for a blank line, for a line that starts
    with [#] and for a line without [=]; otherwise what stands before and
    after the first [=]. *)
Definition not_equals_sign (c : ascii) : bool := negb (Ascii.eqb c "=").

Fixpoint before_first (keep : ascii -> bool) (s : list ascii) : list ascii :=
  match s with
  | c :: s' => if keep c then c :: before_first keep s' else []
  | [] => []
  end.

Fixpoint from_first (keep : ascii -> bool) (s : list ascii) : list ascii :=
  match s with
  | c :: s' => if keep c then from_first keep s' else s
  | [] => []
  end.

Definition config_pair (line : list ascii) : option (string * string) :=
  match strip line with
  | [] => None
  | c :: rest =>
      if Ascii.eqb c "#" then None
      else
        match from_first not_equals_sign (c :: rest) with
        | [] => None
        | _ :: value =>
            Some (string_of_list_ascii
                    (strip (before_first not_equals_sign (c :: rest))),
                  string_of_list_ascii (strip value))
        end
  end.

Definition config_pairs (text : string) : list (string * string) :=
  omap config_pair (readlines (chars text)).

(** The dict that results from assigning the pairs in order. *)
Definition dict_of_pairs (pairs : list (string * string)) : gmap string string :=
  foldl (fun d kv => <[fst kv := snd kv]> d) ∅ pairs.

(** The same contract read word for word, on the lines as they stand:
    a line is blank when it holds white space only, it is a comment when
    its first character is [#], and the key and the value are the texts
    before and after the first [=]. *)
Definition stated_pair (line : list ascii) : option (string * string) :=
  if forallb is_space line then None
  else
    match line with
    | [] => None
    | c :: _ =>
        if Ascii.eqb c "#" then None
        else
          match from_first not_equals_sign line with
          | [] => None
          | _ :: value =>
              Some (string_of_list_ascii (before_first not_equals_sign line),
                    string_of_list_ascii value)
          end
    end.

Definition stated_pairs (text : string) : list (string * string) :=
  omap stated_pair (lines_of (chars text)).

(** A config file. *)
Definition example_config : string :=
  "# defects4j" +:+ String "010" "pid = Lang"
  +:+ String "010" "" +:+ String "010" "no separator here"
  +:+ String "010" "d4j.classes.relevant=org.Foo=Bar"
  +:+ String "010" "pid=Math" +:+ String "010" "".

(** Whether the output read by a tool is Major's with an empty
    [kill.csv] table. *)
Definition has_empty_kill_table (k : tool_kind) : tool_output k -> Prop :=
  match k with
  | Major => fun tables => fst tables = []
  | _ => fun _ => False
  end.

(** The children of a tree whose [detected] attribute is [v]. *)
Definition count_detected (v : string) (children : list element) : nat :=
  length (filter (fun child => get child "detected" = Some v) children).

(** A report of Pit: six mutations, four of them detected. *)
Definition mutation (detected : string) : element :=
  Element "mutation" {[ "detected" := detected ]} [].

Definition six_mutations : element :=
  Element "mutations" ∅
    [mutation "true"; mutation "false"; mutation "true";
     mutation "true"; mutation "false"; mutation "true"].

(** The record for four killed mutants of six, in exact arithmetic. *)
Definition four_of_six : @score_dict exact_arith :=
  {| killed := 4; live := 2; all := 6;
     score := PyFloat (667 # 1000)%Q;
     score_full := PyFloat (2 # 3)%Q |}.

(** The rows of a joined table whose status is exactly "LIVE". *)
Definition count_live (df : list (mutant_row * option string)) : nat :=
  length (filter (fun row => snd row = Some "LIVE") df).

(** Tables of Major: five described mutants, two of them live. *)
Definition described (n : Z) : mutant_row :=
  {| MutantNo := n; Operator := "ROR"; From_ := "<"; To_ := "<=";
     Signature := "org.Foo@bar"; LineNumber := 10 + n;
     Description := "a < b |==> a <= b" |}.

Definition five_mutants : list mutant_row :=
  [described 1; described 2; described 3; described 4; described 5].

Definition two_live : list kill_row :=
  [ {| kill_MutantNo := 1; Status := Some "FAIL" |};
    {| kill_MutantNo := 2; Status := Some "LIVE" |};
    {| kill_MutantNo := 3; Status := Some "TIME" |};
    {| kill_MutantNo := 4; Status := Some "LIVE" |};
    {| kill_MutantNo := 5; Status := Some "EXC" |} ].

(** Transcripts of Jumble around a given text between the markers. *)
Definition transcript (between : string) : string :=
  "Mutating org.Foo" +:+ String "010" "Tests: org.FooTest"
  +:+ String "010" "Mutation points = 8, unit test time limit 2.02s"
  +:+ between
  +:+ "Jumbling took 6.2s" +:+ String "010" "Score: 62%".

(** Three live mutants, then five killed ones. *)
Definition three_fails_five_dots : string :=
  String "010" "M FAIL: org.Foo:31: negated conditional"
  +:+ String "010" "M FAIL: org.Foo:33: negated conditional"
  +:+ String "010" "M FAIL: org.Foo:34: - -> +"
  +:+ String "010" ". . . . ." +:+ String "010" "".

(** What is left of [three_fails_five_dots] without the three matches. *)
Definition five_dots_left : string :=
  String "010" (String "010" (String "010" (String "010" ". . . . .")))
  +:+ String "010" "".

(** No mutant at all between the markers. *)
Definition no_mutant : string := String "010" "".

(** Two killed mutants and a live one on the same line. *)
Definition dots_before_fail : string :=
  String "010" "..M FAIL: org.Foo:31: negated conditional" +:+ String "010" "".

(** A transcript without the start marker, for a class that is an
    interface. *)
Definition interface_transcript : string :=
  "Mutating org.Foo" +:+ String "010" "Score: 100% (INTERFACE)".

(** The record of Major for two empty tables. *)
Definition empty_record : @score_dict exact_arith :=
  {| killed := 0; live := 0; all := 0;
     score := PyInt 0; score_full := PyInt 0 |}.

(** A report of Pit with three mutations, two of them detected, and its
    record in exact arithmetic. *)
Definition three_mutations : element :=
  Element "mutations" ∅ [mutation "true"; mutation "false"; mutation "true"].

Definition two_of_three : @score_dict exact_arith :=
  {| killed := 2; live := 1; all := 3;
     score := PyFloat (667 # 1000)%Q;
     score_full := PyFloat (2 # 3)%Q |}.

(** A report with one entry for the class, seven mutants killed of ten. *)
Definition seven_of_ten : judy_report :=
  {| classes :=
       [ {| name := "org.Bar"; mutantsCount := 4; mutantsKilledCount := 1 |};
         {| name := "org.Foo"; mutantsCount := 10; mutantsKilledCount := 7 |} ]
  |}.

(** A transcript without the start marker, after a crash. *)
Definition crashed_transcript : string :=
  "Mutating org.Foo" +:+ String "010" "Score: 0% (engine crashed".

(** * The rest of the code: scripts, commands and the project *)

(** ** [str.replace], [str.split], [str.join], [str.lower] *)

(** [s.replace(old, new)] for a non-empty [old], from the left; [skip] is
    the number of characters of the current occurrence still to drop. *)
Fixpoint replace_from (old new : list ascii) (skip : nat) (s : list ascii)
    : list ascii :=
  match s with
  | [] => []
  | c :: s' =>
      match skip with
      | S skip' => replace_from old new skip' s'
      | O =>
          if starts_with old s
          then new ++ replace_from old new (length old - 1) s'
          else c :: replace_from old new O s'
      end
  end.

(** [s.replace(old, new)]; an empty [old] is found before every character
    and at the end. *)
Definition str_replace (s old new : list ascii) : list ascii :=
  match old with
  | [] => new ++ flat_map (fun c => c :: new) s
  | _ :: _ => replace_from old new O s
  end.

Definition py_replace (s old new : string) : string :=
  string_of_list_ascii (str_replace (chars s) (chars old) (chars new)).

(** [s.split(sep)] for a separator of one character. *)
Fixpoint split_char (sep : ascii) (s : list ascii) : list (list ascii) :=
  match s with
  | [] => [[]]
  | c :: s' =>
      if Ascii.eqb c sep then [] :: split_char sep s'
      else match split_char sep s' with
           | [] => [[c]]
           | piece :: pieces => (c :: piece) :: pieces
           end
  end.

(** [sep.join(pieces)] *)
Fixpoint join_with (sep : list ascii) (pieces : list (list ascii))
    : list ascii :=
  match pieces with
  | [] => []
  | [piece] => piece
  | piece :: rest => piece ++ sep ++ join_with sep rest
  end.

(** [l[:-1]] *)
Definition but_last {A : Type} (l : list A) : list A :=
  take (length l - 1) l.

(** [c.lower()] of one character below 256. *)
Definition lower_char (c : ascii) : ascii :=
  if in_range 65 90 c || in_range 192 214 c || in_range 216 222 c
  then ascii_of_N (N_of_ascii c + 32)
  else c.

Definition str_lower (s : list ascii) : list ascii := map lower_char s.

(** [s.endswith(suffix)] *)
Definition endswith (s suffix : list ascii) : bool :=
  starts_with (reverse suffix) (reverse s).

(** ** [Tool.replace] and the [setup] methods

    The methods rewrite a script of the project directory; here they are
    functions from the content read to the content written. *)

(** A value of the dict [mapping]. *)
Record flag : Type := {
  original : string;
  replacement : string
}.

(** [Tool.replace]: the flags are replaced one after the other, in the
    order of [mapping.values()]. *)
Definition Tool_replace (mapping : list (string * flag)) (content : string)
    : string :=
  fold_left
    (fun fixed adict => py_replace fixed (original adict) (replacement adict))
    (map snd mapping) content.

(** [kwargs[key]] *)
Definition subscript (kwargs : gmap string string) (key : string)
    : result string :=
  match kwargs !! key with
  | Some value => Ok value
  | None => Raise (KeyError (Some key))
  end.

Definition double_quote : string := String "034" "".

(** [Jumble._create_verbose_script], on the content of [jumble.sh]: the
    content of [jumble_verbose.sh]. *)
Definition Jumble_create_verbose_script (script : string) : string :=
  Tool_replace
    [("verbose",
      {| original := "VERBOSE=" +:+ double_quote +:+ double_quote;
         replacement :=
           "VERBOSE=" +:+ double_quote +:+ "--verbose" +:+ double_quote |})]
    script.

(** [Jumble.setup], on the content of the template [jumble.sh]: the
    contents of [jumble.sh] and of [jumble_verbose.sh]. *)
Definition Jumble_setup (kwargs : gmap string string) (template : string)
    : result (string * string) :=
  let mutations := default "MUTATIONS_ALL" (kwargs !! "mutations") in
  do tests <- subscript kwargs "tests";
  do class <- subscript kwargs "class";
  let mapping :=
    [("tests", {| original := "<REPLACE_TESTS>"; replacement := tests |});
     ("class", {| original := "<REPLACE_CLASS>"; replacement := class |});
     ("mutations",
      {| original := "<REPLACE_MUTATIONS>"; replacement := mutations |})] in
  let script := Tool_replace mapping template in
  Ok (script, Jumble_create_verbose_script script).

(** [Pit.setup], on the content of the template [pit.sh]. *)
Definition Pit_setup (kwargs : gmap string string) (template : string)
    : result string :=
  do tests <- subscript kwargs "tests";
  do class <- subscript kwargs "class";
  let mapping :=
    [("tests", {| original := "<TEST_REGEXP>"; replacement := tests |});
     ("class", {| original := "<CLASS_REGEXP>"; replacement := class |})] in
  Ok (Tool_replace mapping template).

(** A script seen as pieces: text, or a flag still to replace. *)
Inductive piece : Type :=
| Text (s : list ascii)
| Flag (token : list ascii).

Definition render_piece (p : piece) : list ascii :=
  match p with
  | Text s => s
  | Flag token => token
  end.

Definition render (pieces : list piece) : list ascii :=
  concat (map render_piece pieces).

(** The pieces with the flag [token] filled by [value]. *)
Definition fill (token value : list ascii) (p : piece) : piece :=
  match p with
  | Text s => Text s
  | Flag token' =>
      if bool_decide (token' = token) then Text value else Flag token'
  end.

(** [<] occurs nowhere in the text. *)
Definition no_bracket (s : list ascii) : Prop := "<"%char ∉ s.

(** A flag is [<] and then no further [<]. *)
Definition is_flag (token : list ascii) : Prop :=
  exists body, token = "<"%char :: body /\ no_bracket body.

(** Pieces whose texts hold no [<] and whose flags are among [tokens]. *)
Definition well_formed (tokens : list (list ascii)) (p : piece) : Prop :=
  match p with
  | Text s => no_bracket s
  | Flag token => token ∈ tokens
  end.

(** No flag starts with another one. *)
Definition prefix_free (tokens : list (list ascii)) : Prop :=
  forall t t' rest, t ∈ tokens -> t' ∈ tokens ->
                    starts_with t (t' ++ rest) = true -> t = t'.

Definition Jumble_flags : list (list ascii) :=
  [chars "<REPLACE_TESTS>"; chars "<REPLACE_CLASS>";
   chars "<REPLACE_MUTATIONS>"].

Definition Pit_flags : list (list ascii) :=
  [chars "<TEST_REGEXP>"; chars "<CLASS_REGEXP>"].

(** ** [Project.get_tests]: from paths to Java names *)

(** The name of one test found by [rglob]:
    [str(test).replace("/", ".").replace(".java", "")]. *)
Definition java_name (test : string) : string :=
  py_replace (py_replace test "/" ".") ".java" "".

(** [Project.get_tests], on the paths that [rglob("*.java")] finds. *)
Definition get_tests (found : list string) : list string :=
  map java_name found.

(** What [java_name] makes of a piece that follows a separator. *)
Definition glued (token : list ascii) : list ascii :=
  if starts_with (chars "java") token then drop 4 token
  else "."%char :: token.

(** A path as its first piece and the further pieces, each after a [/]
    or a [.]. *)
Definition spell (first : list ascii) (more : list (ascii * list ascii))
    : list ascii :=
  first ++ flat_map (fun sp => fst sp :: snd sp) more.

(** The text [Jumble.setup] puts in the place of a piece. *)
Definition Jumble_text (tests class mutations : list ascii) (p : piece)
    : list ascii :=
  match p with
  | Text s => s
  | Flag token =>
      if bool_decide (token = chars "<REPLACE_TESTS>") then tests
      else if bool_decide (token = chars "<REPLACE_CLASS>") then class
      else if bool_decide (token = chars "<REPLACE_MUTATIONS>") then mutations
      else token
  end.

(** The text [Pit.setup] puts in the place of a piece. *)
Definition Pit_text (tests class : list ascii) (p : piece) : list ascii :=
  match p with
  | Text s => s
  | Flag token =>
      if bool_decide (token = chars "<TEST_REGEXP>") then tests
      else if bool_decide (token = chars "<CLASS_REGEXP>") then class
      else token
  end.

(** A template of [jumble.sh] and the arguments of a run. *)
Definition jumble_template : list piece :=
  [Text (chars "java -cp jumble.jar "); Flag (chars "<REPLACE_CLASS>");
   Text (chars " "); Flag (chars "<REPLACE_TESTS>");
   Text (chars " --include="); Flag (chars "<REPLACE_MUTATIONS>");
   Text (chars " # class: "); Flag (chars "<REPLACE_CLASS>")].

Definition jumble_kwargs : gmap string string :=
  {[ "tests" := "org.FooTest org.BarTest"; "class" := "org.Foo" ]}.

(** A template of [pit.sh]. *)
Definition pit_template : list piece :=
  [Text (chars "--targetClasses "); Flag (chars "<CLASS_REGEXP>");
   Text (chars " --targetTests "); Flag (chars "<TEST_REGEXP>")].

Definition pit_kwargs : gmap string string :=
  {[ "tests" := "*Test*"; "class" := "org.Foo" ]}.

(** Neither [/] nor [.] occurs in the text. *)
Definition plain (s : list ascii) : Prop :=
  ("/"%char ∉ s) /\ ("."%char ∉ s).

Definition separated (sp : ascii * list ascii) : Prop :=
  ((fst sp = "/"%char) \/ (fst sp = "."%char)) /\ plain (snd sp).


(** A path with a directory named [java]. *)
Definition java_util_test : list (ascii * list ascii) :=
  [("/"%char, chars "java"); ("/"%char, chars "util");
   ("/"%char, chars "FooTest"); ("."%char, chars "java")].

(** ** [utility]: the commands

    The world of a command is the working directory of the process and
    the processes it has started, each with its arguments, its streams
    and the directory it was started in.  Whether a directory can be
    entered and a program started is for the operating system to say:
    its answers are given, and a call that it refuses raises its
    [OSError]. *)

(** [None], the stream of the parent, or [subprocess.DEVNULL]. *)
Inductive stream : Type := Inherited | DEVNULL.

Record process : Type := {
  argv : list string;
  stdout : stream;
  stderr : stream;
  workdir : string
}.

Record world : Type := {
  cwd : string;
  spawned : list process
}.

(** The [OSError]s, with the subclasses of a missing file, of a path
    that is not a directory and of a missing permission. *)
Inductive os_error : Type :=
| FileNotFoundError
| NotADirectoryError
| PermissionError
| OtherOSError (errno : Z).

(** The answers of the operating system in a world: [None] when the
    call goes through, the error it raises otherwise.  They may depend
    on what has been started before. *)
Record os : Type := {
  getcwd_error : world -> option os_error;
  chdir_error : string -> world -> option os_error;
  run_error : string -> list string -> world -> option os_error
}.

(** How an action ends: it returns, or raises an exception of the
    program or an error of the operating system. *)
Inductive ending : Type :=
| Returns
| Raises (e : exn)
| RaisesOS (e : os_error).

Definition action : Type := world -> ending * world.

Definition skip : action := fun w => (Returns, w).

(** One action after the other; an exception ends both. *)
Definition and_then (first second : action) : action :=
  fun w =>
    match first w with
    | (Returns, w) => second w
    | (raised, w) => (raised, w)
    end.

Definition possible_cmds : list string :=
  ["bids"; "checkout"; "compile"; "coverage"; "env"; "export"; "info";
   "monitor.test"; "mutation"; "pids"; "query"; "test"].

(** [None if kwargs.get(key) else subprocess.DEVNULL] *)
Definition stream_of (kwargs : gmap string bool) (key : string) : stream :=
  if default false (kwargs !! key) then Inherited else DEVNULL.

Section Commands.

Variable sys : os.

(** [subprocess.run([program, *args], stdout=..., stderr=...)]; the
    return code of the process is not looked at. *)
Definition subprocess_run (program : string) (args : list string)
    (out err : stream) : action :=
  fun w =>
    match run_error sys program args w with
    | Some e => (RaisesOS e, w)
    | None =>
        (Returns,
         {| cwd := cwd w;
            spawned :=
              spawned w
              ++ [ {| argv := program :: args; stdout := out; stderr := err;
                      workdir := cwd w |} ] |})
    end.

(** [os.chdir(path)] *)
Definition chdir (path : string) : action :=
  fun w =>
    match chdir_error sys path w with
    | Some e => (RaisesOS e, w)
    | None => (Returns, {| cwd := path; spawned := spawned w |})
    end.

Definition defects4j_cmd (cmd : string) (args : list string)
    (kwargs : gmap string bool) : action :=
  let run command :=
    subprocess_run "defects4j" (command ++ args)
      (stream_of kwargs "stdout") (stream_of kwargs "stderr") in
  if negb (String.eqb cmd "") then
    if bool_decide (cmd ∈ possible_cmds) then run [cmd]
    else fun w =>
      (Raises (AssertionError "Invalid command provided for defects4j!"), w)
  else run [].

(** [bash_script(script, capture_out, capture_err)] *)
Definition bash_script (script : string) (capture_out capture_err : bool)
    : action :=
  subprocess_run "bash" [script]
    (if capture_out then Inherited else DEVNULL)
    (if capture_err then Inherited else DEVNULL).

Section Directories.

(** [str(pathlib.Path(path).resolve())] in the working directory [cwd]. *)
Variable resolve : string -> string -> string.

Definition defects4j_cmd_dirpath (project_dir command : string)
    (args : list string) (kwargs : gmap string bool) : action :=
  fun w =>
    match getcwd_error sys w with
    | Some e => (RaisesOS e, w)
    | None =>
        let old_path := cwd w in
        let new_path := resolve old_path project_dir in
        let change_dir := negb (String.eqb old_path new_path) in
        and_then (if change_dir then chdir new_path else skip)
          (and_then (defects4j_cmd command args kwargs)
             (if change_dir then chdir old_path else skip)) w
    end.


End Directories.

End Commands.

(** The process that [defects4j_cmd] asks for in the directory [dir]. *)
Definition defects4j_process (arguments : list string)
    (kwargs : gmap string bool) (dir : string) : process :=
  {| argv := "defects4j" :: arguments;
     stdout := stream_of kwargs "stdout";
     stderr := stream_of kwargs "stderr";
     workdir := dir |}.

(** A world, a way to resolve paths in it, and a machine that has the
    directories [dirs] and finds the programs [programs]. *)
Definition home_world : world := {| cwd := "/home/user"; spawned := [] |}.

Definition resolve_absolute (cwd path : string) : string := path.

Definition found (name : string) (names : list string) : option os_error :=
  if existsb (String.eqb name) names then None else Some FileNotFoundError.

Definition machine (dirs programs : list string) : os :=
  {| getcwd_error := fun w => found (cwd w) dirs;
     chdir_error := fun path _ => found path dirs;
     run_error := fun program _ _ => found program programs |}.

Definition workstation : os :=
  machine ["/home/user"; "/checkout/lang"] ["bash"; "defects4j"].

(** ** [Project]

    [Project.__init__] reads the two config files of a checkout, here
    given by their texts, and ends with a backup of the tests, a move of
    directories that is outside this embedding.  Paths are values of
    [pathlib] that the code only joins. *)

Module Checkout.

Inductive BugStatus : Type := BUGGY | FIXED.

(** [BugStatus.value] *)
Definition value (status : BugStatus) : ascii :=
  match status with
  | BUGGY => "b"%char
  | FIXED => "f"%char
  end.

Definition compatible_projects : list string := ["Cli"; "Gson"; "Lang"].

(** [(\d+)(\w+)] *)
Definition vid_pattern : pattern := [Plus is_digit; Plus is_word].

(** The bug and its status, from the value of [vid]:
    [re.match(r"(\d+)(\w+)", vid).groups()] and the test of the status. *)
Definition bug_of_vid (vid : string) : result (string * BugStatus) :=
  match match_here vid_pattern (chars vid) with
  | Some ([bug; bug_status], _) =>
      let bug_status := string_of_list_ascii bug_status in
      if String.eqb bug_status "b" then Ok (string_of_list_ascii bug, BUGGY)
      else if String.eqb bug_status "f" then
        Ok (string_of_list_ascii bug, FIXED)
      else
        Raise (ValueError
                 ("Invalid bug status found in config (" +:+ bug_status
                  +:+ ")"))
  | _ => Raise AttributeError
  end.

Section Paths.
Variable path : Type.
Variable joinpath : path -> string -> path.
Variable FILES : path.

Record Project : Type := {
  filepath : path;
  name : string;
  bug : string;
  bug_status : BugStatus;
  relevant_class : string;
  test_dir : path;
  package : string;
  full_test_dir : path;
  test_class : string
}.

Definition Project_init (filepath : path) (config_text properties_text : string)
    : result Project :=
  do config <- read_config config_text "=";
  do name <- subscript config "pid";
  if negb (bool_decide (name ∈ compatible_projects)) then
    Raise (ValueError
             ("Incompatible project! Use one of ("
              +:+ repr_items compatible_projects +:+ ")"))
  else
    do vid <- subscript config "vid";
    do version <- bug_of_vid vid;
    do properties <- read_config properties_text "=";
    do relevant_class <- subscript properties "d4j.classes.relevant";
    do tests <- subscript properties "d4j.dir.src.tests";
    let test_dir := joinpath filepath tests in
    let package :=
      string_of_list_ascii
        (join_with (chars ".")
           (but_last (split_char "." (chars relevant_class)))) in
    let package_path := py_replace package "." "/" in
    Ok {| filepath := filepath;
          name := name;
          bug := fst version;
          bug_status := snd version;
          relevant_class := relevant_class;
          test_dir := test_dir;
          package := package;
          full_test_dir := joinpath test_dir package_path;
          test_class := relevant_class +:+ "Test" |}.

(** [Project.is_compatible_project] *)
Definition is_compatible_project (self : Project) : bool :=
  bool_decide (name self ∈ compatible_projects).

(** [Project.project_tests_root] *)
Definition project_tests_root (self : Project) : result path :=
  let tests :=
    [("Cli", "cli_tests"); ("Gson", "gson_tests"); ("Lang", "lang_tests")] in
  match list_find (fun entry => fst entry = name self) tests with
  | Some (_, entry) => Ok (joinpath FILES (snd entry))
  | None => Raise (KeyError (Some (name self)))
  end.

(** The local [fname] of [Project.test_classes], the directory of the
    relevant tests under [FILES]. *)
Definition test_classes_fname (self : Project) : string :=
  string_of_list_ascii (str_lower (chars (name self))) +:+ "_tests".

End Paths.

End Checkout.

(** The two config files of a checkout of Lang. *)
Definition lang_config : string :=
  "#File automatically generated by Defects4J"
  +:+ String "010" "pid=Lang" +:+ String "010" "vid=12b" +:+ String "010" "".

Definition lang_properties : string :=
  "d4j.classes.relevant=org.apache.commons.lang3.math.NumberUtils"
  +:+ String "010" "d4j.dir.src.tests=src/test/java" +:+ String "010" "".

(** A checkout of Lang, with paths as strings. *)
Definition join_strings (dir part : string) : string := dir +:+ "/" +:+ part.

Definition lang_project : Checkout.Project string :=
  {| Checkout.filepath := "/checkout";
     Checkout.name := "Lang";
     Checkout.bug := "12";
     Checkout.bug_status := Checkout.BUGGY;
     Checkout.relevant_class := "org.apache.commons.lang3.math.NumberUtils";
     Checkout.test_dir := "/checkout/src/test/java";
     Checkout.package := "org.apache.commons.lang3.math";
     Checkout.full_test_dir :=
       "/checkout/src/test/java/org/apache/commons/lang3/math";
     Checkout.test_class := "org.apache.commons.lang3.math.NumberUtilsTest" |}.

(** A line of a config file that holds a key and a value, if the
    separator is found: neither blank nor a comment. *)
Definition candidate (line : list ascii) : Prop :=
  match strip line with
  | [] => False
  | c :: _ => c <> "#"%char
  end.

(** A child of the root with a [detected] attribute that [bool_mapper]
    knows. *)
Definition detected_known (child : element) : Prop :=
  get child "detected" = Some "true" \/ get child "detected" = Some "false".

(** A report of Pit whose second mutation has a status but no
    [detected] attribute. *)
Definition undetected_mutation : element :=
  Element "mutation" {[ "status" := "KILLED" ]} [].

Definition broken_mutations : element :=
  Element "mutations" ∅
    [mutation "true"; undetected_mutation; mutation "maybe"].

(** ** [Tool.get_mutation_score] *)

Section ScoreDocument.
Context {PA : PyArith}.

(** [Tool.get_mutation_score]: the score it returns and, when a document
    is written, the name of the document in the output directory and the
    dict that [json.dump] receives. *)
Definition get_mutation_score (self : Tool) (out : tool_output (kind self))
    (json_output : option string)
    : result (pynum * option (string * score_dict)) :=
  do score_dict <- get_mutation_score_dict self out;
  let written :=
    match json_output with
    | None => None
    | Some json_output =>
        if String.eqb json_output "" then None
        else
          let json_output :=
            if negb (endswith (chars json_output) (chars ".json"))
            then json_output +:+ ".json"
            else json_output in
          Some (json_output, score_dict)
    end in
  Ok (score score_dict, written).

End ScoreDocument.

(** ** [Project.get_student_names] *)

(** [[a-zA-Z]] *)
Definition is_alpha (c : ascii) : bool :=
  in_range 97 122 c || in_range 65 90 c.

(** [^([a-zA-Z]+)_([a-zA-Z]+)_([a-zA-Z]\d+)], matched at the start of a
    name. *)
Definition student_pattern : pattern :=
  [Plus is_alpha; Lit "_"; Plus is_alpha; Lit "_"; One is_alpha;
   Plus is_digit].

(** [match.group(3)] for a file name, [None] for [continue]. *)
Definition student_of (file : string) : option string :=
  match match_here student_pattern (chars file) with
  | Some ([_; _; _; _; letter; digits], _) =>
      Some (string_of_list_ascii (letter ++ digits))
  | _ => None
  end.

(** [Project.get_student_names], on the names that [glob("*.java")]
    finds in the directory of the tool. *)
Definition get_student_names (files : list string) : list string :=
  omap student_of files.

(** The shape of a file name of a student: [first_last_<letter><digits>]
    and then anything that starts with no digit. *)
Definition student_file (file : list ascii) (id : list ascii) : Prop :=
  exists first last letter digits rest,
    file = first ++ "_"%char :: last ++ "_"%char :: letter :: digits ++ rest
    /\ id = letter :: digits
    /\ first <> [] /\ Forall (fun c => is_alpha c = true) first
    /\ last <> [] /\ Forall (fun c => is_alpha c = true) last
    /\ is_alpha letter = true
    /\ digits <> [] /\ Forall (fun c => is_digit c = true) digits
    /\ match rest with
       | [] => True
       | c :: _ => is_digit c = false
       end.

(** * Properties *)

(** ** Exact arithmetic satisfies the laws *)

Lemma round_half_even_0 (d : positive) : round_half_even (0 # d) = 0.
Proof.
  unfold round_half_even. cbn [Qnum Qden].
  rewrite Z.mod_0_l by discriminate. rewrite Z.div_0_l by discriminate.
  reflexivity.
Qed.

Lemma exact_round_0 (n : Z) : exact_round (inject_Z 0) n = inject_Z 0.
Proof.
  unfold exact_round. destruct (0 <=? n).
  - change (inject_Z 0 * inject_Z (10 ^ n))%Q with (0 # 1)%Q.
    rewrite round_half_even_0. reflexivity.
  - change (inject_Z 0 / inject_Z (10 ^ (- n)))%Q
      with (0 # Qden (/ inject_Z (10 ^ (- n))))%Q.
    rewrite round_half_even_0. reflexivity.
Qed.

#[export] Instance exact_arith_laws : PyArithLaws exact_arith.
Proof.
  split.
  - intros a b _ _. eexists. reflexivity.
  - intros b _. reflexivity.
  - apply exact_round_0.
Qed.

(** ** The division and the score fields *)

Section ScoreRecords.
Context {PA : PyArith}.

Lemma py_truediv_by_zero (a : Z) : py_truediv a 0 = Raise ZeroDivisionError.
Proof. reflexivity. Qed.

Lemma py_truediv_Ok (a b : Z) (q : pyfloat) :
  py_truediv a b = Ok q -> b <> 0 /\ int_truediv a b = Some q.
Proof.
  unfold py_truediv. destruct (Z.eqb_spec b 0) as [->|Hb]; [discriminate|].
  destruct (int_truediv a b); [|discriminate]. intros [= ->]. auto.
Qed.

Lemma py_truediv_fits `{!PyArithLaws PA} (a b : Z) :
  b <> 0 -> Z.abs a <= Z.abs b * 2 ^ 1023 ->
  exists q, py_truediv a b = Ok q /\ int_truediv a b = Some q.
Proof.
  intros Hb Hfit. unfold py_truediv.
  destruct (Z.eqb_spec b 0) as [->|_]; [contradiction|].
  destruct (int_truediv_fits a b Hb Hfit) as [q ->]. eauto.
Qed.

(** A count divided by a larger positive count fits a float. *)
Lemma py_truediv_counts `{!PyArithLaws PA} (a b : Z) :
  0 <= a <= b -> 0 < b ->
  exists q, py_truediv a b = Ok q /\ int_truediv a b = Some q.
Proof.
  intros Hab Hb. apply py_truediv_fits; [lia|].
  assert (0 < 2 ^ 1023) as Hpow by (apply Z.pow_pos_nonneg; lia).
  rewrite !Z.abs_eq by lia. generalize dependent (2 ^ 1023). intros; nia.
Qed.

(** The record a parser builds after the division: its five fields. *)
Lemma scored_record (k l a : Z) (r : score_dict) :
  (do score_full <- py_truediv k a;
   Ok {| killed := k; live := l; all := a;
         score := PyFloat (py_round score_full 3);
         score_full := PyFloat score_full |}) = Ok r ->
  exists q, a <> 0 /\ int_truediv k a = Some q
            /\ r = {| killed := k; live := l; all := a;
                      score := PyFloat (py_round q 3);
                      score_full := PyFloat q |}.
Proof.
  destruct (py_truediv k a) as [q|e] eqn:E; cbn; [|discriminate].
  intros [= <-]. apply py_truediv_Ok in E as [Ha Hq]. eauto.
Qed.

(** What every returned record satisfies: it comes from the branch of
    Major for an empty [kill.csv], or from a division that succeeded. *)
Lemma returned_record (self : Tool) (out : tool_output (kind self))
    (r : score_dict) :
  get_mutation_score_dict self out = Ok r ->
  (has_empty_kill_table (kind self) out
   /\ killed r = 0 /\ live r = all r /\ 0 <= all r
   /\ score r = PyInt 0 /\ score_full r = PyInt 0)
  \/ (exists q, all r <> 0 /\ killed r + live r = all r
                /\ int_truediv (killed r) (all r) = Some q
                /\ score r = PyFloat (py_round q 3)
                /\ score_full r = PyFloat q).
Proof.
  destruct self as [k dir cls]. unfold get_mutation_score_dict. cbn [kind] in *.
  destruct k; cbn [tool_output] in out.
  - (* Judy *)
    unfold Judy_get_mutation_score. cbn [class_under_mutation].
    destruct (negb _); [discriminate|]. destruct (negb _); [discriminate|].
    destruct (filter _ _) as [|adict ?]; [discriminate|].
    intros H. apply scored_record in H as (q & Ha & Hq & ->).
    right. exists q. cbn. repeat split; auto. lia.
  - (* Jumble *)
    unfold Jumble_get_mutation_score.
    destruct (Jumble_region _) as [region|].
    2:{ destruct (search _ _) as [[[? ?] ?]|]; discriminate. }
    destruct (subn _ _) as [killed_text live_count].
    intros H. apply scored_record in H as (q & Ha & Hq & ->).
    right. exists q. cbn. repeat split; auto. lia.
  - (* Major *)
    destruct out as [kill_df mutants_df]. cbn [fst snd].
    unfold Major_get_mutation_score.
    destruct kill_df as [|k0 kill_df]; cbn [length Nat.eqb].
    + intros [= <-]. left. cbn. repeat split; auto. lia.
    + intros H. apply scored_record in H as (q & Ha & Hq & ->).
      right. exists q. cbn. repeat split; auto. lia.
  - (* Pit *)
    unfold Pit_get_mutation_score.
    destruct (Pit_count _ _ _) as [[kc lc]|]; cbn; [|discriminate].
    intros H. apply scored_record in H as (q & Ha & Hq & ->).
    right. exists q. cbn. repeat split; auto.
Qed.

(** C1. Every record returned by one of the four parsers (Judy, Jumble,
    Major, Pit) has [killed + live = all]; this includes the record of
    Major for an empty [kill.csv] table and no described mutant, where
    [all = 0]. *)
Theorem killed_plus_live_is_all (self : Tool)
    (out : tool_output (kind self)) (r : score_dict) :
  get_mutation_score_dict self out = Ok r ->
  killed r + live r = all r.
Proof.
  intros H. apply returned_record in H as [(_ & Hk & Hl & _)|(q & _ & H & _)].
  - lia.
  - exact H.
Qed.

(** C2, amended. For every record returned by one of the four parsers:
    when [all > 0], [score] equals [round(killed / all, 3)] and
    [score_full] equals [killed / all]; when [all = 0], the record comes
    from Major with an empty [kill.csv] table, and [score] and
    [score_full] are [0].  Major with an empty [kill.csv] table divides
    nothing: it returns such a record, with [killed = 0] and the two
    scores [0], whatever the table of described mutants. *)
Theorem score_is_rounded_ratio `{!PyArithLaws PA} (self : Tool)
    (out : tool_output (kind self)) :
  (forall r : score_dict,
     get_mutation_score_dict self out = Ok r ->
     (0 < all r ->
      exists q, int_truediv (killed r) (all r) = Some q
                /\ py_eq (score r) (PyFloat (py_round q 3))
                /\ py_eq (score_full r) (PyFloat q))
     /\ (all r = 0 ->
         has_empty_kill_table (kind self) out
         /\ score r = PyInt 0 /\ score_full r = PyInt 0))
  /\ (has_empty_kill_table (kind self) out ->
      exists r : score_dict,
        get_mutation_score_dict self out = Ok r
        /\ killed r = 0 /\ score r = PyInt 0 /\ score_full r = PyInt 0).
Proof.
  split.
  - intros r H.
    apply returned_record in H
      as [(He & Hk & Hl & Ha & Hs & Hf)|(q & Ha & _ & Hq & Hs & Hf)].
    + split; [|auto]. intros Hpos. exists (float_of_int 0).
      rewrite Hk, Hs, Hf. unfold py_eq. cbn.
      rewrite py_round_0. split; [|auto]. apply int_truediv_0_l, Hpos.
    + split; [|intros H0; contradiction].
      intros _. exists q. rewrite Hs, Hf. unfold py_eq. auto.
  - destruct self as [k dir cls]. unfold get_mutation_score_dict.
    cbn [kind] in *. destruct k; cbn [has_empty_kill_table tool_output] in *;
      try contradiction.
    destruct out as [kill_df mutants_df]. cbn [fst snd]. intros ->.
    unfold Major_get_mutation_score. cbn [length Nat.eqb].
    eexists. split; [reflexivity|]. cbn. auto.
Qed.

End ScoreRecords.

Lemma killed_plus_live_is_all_witness :
  get_mutation_score_dict (new_tool Major "/project" "org.Foo") ([], [])
  = Ok empty_record
  /\ killed empty_record + live empty_record = all empty_record.
Proof.
  split; [reflexivity|].
  apply (killed_plus_live_is_all (new_tool Major "/project" "org.Foo")
           ([], []) empty_record).
  reflexivity.
Defined.

Lemma score_is_rounded_ratio_witness :
  get_mutation_score_dict (new_tool Pit "/project" "org.Foo") three_mutations
  = Ok two_of_three
  /\ 0 < all two_of_three
  /\ (exists q, int_truediv (killed two_of_three) (all two_of_three) = Some q
                /\ py_eq (score two_of_three) (PyFloat (py_round q 3))
                /\ py_eq (score_full two_of_three) (PyFloat q))
  /\ (exists r : @score_dict exact_arith,
        get_mutation_score_dict (new_tool Major "/project" "org.Foo")
          ([], [described 1; described 2])
        = Ok r
        /\ killed r = 0 /\ score r = PyInt 0 /\ score_full r = PyInt 0).
Proof.
  split; [reflexivity|]. split; [reflexivity|]. split.
  - apply (proj1 (score_is_rounded_ratio (new_tool Pit "/project" "org.Foo")
                    three_mutations) two_of_three).
    + reflexivity.
    + reflexivity.
  - apply (proj2 (score_is_rounded_ratio (new_tool Major "/project" "org.Foo")
                    ([], [described 1; described 2]))).
    reflexivity.
Defined.

(** C2 as stated fails: [all] is [0] outside the empty [kill.csv] of
    Major as well, and there the division by zero is raised.  A report of
    Pit without mutations counts no mutant, and so does Major with a row
    in [kill.csv] and no described mutant; both raise
    [ZeroDivisionError]. *)
Lemma score_of_no_mutant_raises :
  Pit_count (children_of (Element "mutations" ∅ [])) 0 0 = Ok (0, 0)
  /\ get_mutation_score_dict (PA := exact_arith)
       (new_tool Pit "/project" "org.Foo") (Element "mutations" ∅ [])
     = Raise ZeroDivisionError
  /\ length (join [] [ {| kill_MutantNo := 1; Status := Some "LIVE" |} ])
     = 0%nat
  /\ get_mutation_score_dict (PA := exact_arith)
       (new_tool Major "/project" "org.Foo")
       ([ {| kill_MutantNo := 1; Status := Some "LIVE" |} ], [])
     = Raise ZeroDivisionError.
Proof. repeat split; reflexivity. Qed.

(** ** Judy *)

Section Judy.
Context {PA : PyArith} `{!PyArithLaws PA}.

(** C6, amended. When no class entry or more than one has the name of the
    class under mutation, the parser of Judy raises [AssertionError] (the
    [AmbiguousTargetError] of the specification).  When exactly one entry
    has it, with [mutantsCount] not zero and a ratio that fits a float,
    the parser returns [all = mutantsCount], [killed = mutantsKilledCount]
    and [live = all - killed]. *)
Theorem Judy_single_entry (self : Tool) (result_dict : judy_report) :
  let matching :=
    filter (fun adict => name adict = class_under_mutation self)
           (classes result_dict) in
  (length matching = 0%nat \/ (1 < length matching)%nat ->
   exists msg,
     Judy_get_mutation_score self result_dict = Raise (AssertionError msg))
  /\ (forall adict,
        matching = [adict] ->
        mutantsCount adict <> 0 ->
        Z.abs (mutantsKilledCount adict)
        <= Z.abs (mutantsCount adict) * 2 ^ 1023 ->
        exists r,
          Judy_get_mutation_score self result_dict = Ok r
          /\ all r = mutantsCount adict
          /\ killed r = mutantsKilledCount adict
          /\ live r = all r - killed r).
Proof.
  intros matching. unfold Judy_get_mutation_score. fold matching. split.
  - intros [H0|H1].
    + rewrite H0. cbn. eauto.
    + destruct matching as [|a [|b rest]]; cbn in H1; try lia.
      cbn. eauto.
  - intros adict -> Hall Hfit. cbn.
    destruct (py_truediv_fits _ _ Hall Hfit) as (q & -> & _). cbn.
    eexists. split; [reflexivity|]. cbn. auto.
Qed.

End Judy.

Lemma Judy_single_entry_witness :
  exists r : score_dict,
    Judy_get_mutation_score (new_tool Judy "/project" "org.Foo") seven_of_ten
    = Ok r
    /\ all r = 10 /\ killed r = 7 /\ live r = all r - killed r.
Proof.
  apply (proj2 (Judy_single_entry (new_tool Judy "/project" "org.Foo")
                  seven_of_ten)
           {| name := "org.Foo"; mutantsCount := 10; mutantsKilledCount := 7 |}).
  - reflexivity.
  - cbn. lia.
  - cbn. lia.
Defined.

(** C6 as stated fails: one entry has the name of the class under
    mutation, its [mutantsCount] is [0], and the parser raises
    [ZeroDivisionError] instead of returning a record. *)
Lemma Judy_no_mutants_raises :
  let self := new_tool Judy "/project" "org.Foo" in
  let result_dict :=
    {| classes :=
         [ {| name := "org.Foo"; mutantsCount := 0; mutantsKilledCount := 0 |} ]
    |} in
  length (filter (fun adict => name adict = class_under_mutation self)
                 (classes result_dict)) = 1%nat
  /\ Judy_get_mutation_score (PA := exact_arith) self result_dict
     = Raise ZeroDivisionError.
Proof. split; reflexivity. Qed.

(** ** Pit *)

Section Pit.
Context {PA : PyArith} `{!PyArithLaws PA}.

Lemma get_true_not_false (child : element) :
  get child "detected" = Some "true" -> get child "detected" <> Some "false".
Proof. intros -> [=]. Qed.

Lemma Pit_count_detected (children : list element) (killed_count live_count : Z) :
  Forall (fun child => get child "detected" = Some "true"
                       \/ get child "detected" = Some "false") children ->
  Pit_count children killed_count live_count
  = Ok (killed_count + Z.of_nat (count_detected "true" children),
        live_count + Z.of_nat (count_detected "false" children)).
Proof.
  intros Hall. revert killed_count live_count.
  induction Hall as [|child rest Hchild _ IH]; intros kc lc.
  - cbn. do 2 f_equal; lia.
  - unfold count_detected in *. cbn [Pit_count].
    rewrite !filter_cons.
    destruct Hchild as [Ht|Hf].
    + rewrite Ht. cbn [bool_mapper String.eqb]. cbn.
      rewrite IH. rewrite decide_True by reflexivity.
      rewrite decide_False by discriminate.
      cbn [length]. do 2 f_equal; lia.
    + rewrite Hf. cbn. rewrite IH.
      rewrite decide_False by discriminate.
      rewrite decide_True by reflexivity.
      cbn [length]. do 2 f_equal; lia.
Qed.

(** C7, amended. For every report of Pit with at least one child under
    the root, each child with [detected] equal to "true" or to "false",
    the parser returns [killed] = the number of children with "true",
    [live] = the number with "false", [all = killed + live] and
    [score = round(killed / all, 3)].  The report [six_mutations], four
    "true" and two "false", gives [killed = 4], [live = 2], [all = 6] and,
    in exact arithmetic, [score = 0.667]. *)
Theorem Pit_counts_detected (tree : element) :
  children_of tree <> [] ->
  Forall (fun child => get child "detected" = Some "true"
                       \/ get child "detected" = Some "false")
         (children_of tree) ->
  (exists r q,
     Pit_get_mutation_score tree = Ok r
     /\ killed r = Z.of_nat (count_detected "true" (children_of tree))
     /\ live r = Z.of_nat (count_detected "false" (children_of tree))
     /\ all r = killed r + live r
     /\ int_truediv (killed r) (all r) = Some q
     /\ score r = PyFloat (py_round q 3))
  /\ Pit_get_mutation_score (PA := exact_arith) six_mutations
     = Ok four_of_six.
Proof.
  intros Hne Hall. split; [|reflexivity].
  unfold Pit_get_mutation_score. rewrite (Pit_count_detected _ 0 0 Hall).
  cbn [bind]. rewrite !Z.add_0_l.
  set (k := count_detected "true" (children_of tree)).
  set (l := count_detected "false" (children_of tree)).
  assert (0 < k + l)%nat as Hpos.
  { subst k l. unfold count_detected.
    destruct (children_of tree) as [|child rest]; [contradiction|].
    rewrite !filter_cons. inversion Hall as [|? ? [Ht|Hf] _]; subst.
    - rewrite decide_True by assumption. cbn. lia.
    - rewrite (decide_True (P := _ = Some "false")) by assumption.
      destruct (decide _); cbn; lia. }
  destruct (py_truediv_counts (Z.of_nat k) (Z.of_nat k + Z.of_nat l))
    as (q & -> & Hq); [lia|lia|].
  cbn. eexists _, q. split; [reflexivity|]. cbn. auto.
Qed.

End Pit.

Lemma Pit_counts_detected_witness :
  (exists (r : score_dict) q,
     Pit_get_mutation_score six_mutations = Ok r
     /\ killed r = Z.of_nat (count_detected "true" (children_of six_mutations))
     /\ live r = Z.of_nat (count_detected "false" (children_of six_mutations))
     /\ all r = killed r + live r
     /\ int_truediv (killed r) (all r) = Some q
     /\ score r = PyFloat (py_round q 3))
  /\ Pit_get_mutation_score (PA := exact_arith) six_mutations
     = Ok four_of_six.
Proof.
  apply (Pit_counts_detected (PA := exact_arith) six_mutations).
  - discriminate.
  - repeat (constructor; [first [left; reflexivity | right; reflexivity]|]).
    constructor.
Defined.

(** C7 as stated fails: a root without children satisfies the condition
    on the [detected] attributes, and the parser raises
    [ZeroDivisionError] instead of returning a record. *)
Lemma Pit_no_children_raises :
  let tree := Element "mutations" ∅ [] in
  Forall (fun child => get child "detected" = Some "true"
                       \/ get child "detected" = Some "false")
         (children_of tree)
  /\ Pit_get_mutation_score (PA := exact_arith) tree = Raise ZeroDivisionError.
Proof. split; [constructor|reflexivity]. Qed.

(** ** The registry *)

Lemma lookup_key_valid_tools (requested project_dir class_under_mutation : string) :
  requested ∉ ["judy"; "jumble"; "major"; "pit"] ->
  lookup_key requested (valid_tools project_dir class_under_mutation) = None.
Proof.
  intros Hnot. unfold valid_tools. cbn [map tool_name lookup_key].
  repeat match goal with
         | |- context [String.eqb ?a requested] =>
             destruct (String.eqb_spec a requested) as [<-|_];
             [exfalso; apply Hnot; set_solver|]
         end.
  reflexivity.
Qed.

Lemma get_tool_known_name (k : tool_kind) (project_dir class_under_mutation : string) :
  get_tool (tool_name k) project_dir class_under_mutation
  = Ok (new_tool k project_dir class_under_mutation).
Proof. destruct k; reflexivity. Qed.

(** C8. For a name that is none of judy, jumble, major and pit,
    [get_tool] raises [ValueError] (the [UnknownToolError] of the
    specification) with a message that lists these four names; and for
    every project path and class, [get_all_tools] returns the tools Judy,
    Jumble, Major and Pit, in this order. *)
Theorem get_tool_unknown_name (requested project_dir class_under_mutation : string) :
  requested ∉ ["judy"; "jumble"; "major"; "pit"] ->
  get_tool requested project_dir class_under_mutation
  = Raise (ValueError
             ("Invalid tool provided: " +:+ requested
              +:+ ". Valid tools are ['judy', 'jumble', 'major', 'pit']"))
  /\ get_all_tools project_dir class_under_mutation
     = Ok [new_tool Judy project_dir class_under_mutation;
           new_tool Jumble project_dir class_under_mutation;
           new_tool Major project_dir class_under_mutation;
           new_tool Pit project_dir class_under_mutation].
Proof.
  intros Hnot. split; [|reflexivity].
  unfold get_tool. rewrite lookup_key_valid_tools by assumption.
  reflexivity.
Qed.

Lemma get_tool_unknown_name_witness :
  get_tool "mutmut" "/project" "org.Foo"
  = Raise (ValueError
             "Invalid tool provided: mutmut. Valid tools are ['judy', 'jumble', 'major', 'pit']")
  /\ get_all_tools "/project" "org.Foo"
     = Ok [new_tool Judy "/project" "org.Foo";
           new_tool Jumble "/project" "org.Foo";
           new_tool Major "/project" "org.Foo";
           new_tool Pit "/project" "org.Foo"].
Proof.
  apply (get_tool_unknown_name "mutmut" "/project" "org.Foo").
  intros H. repeat (apply elem_of_cons in H as [H|H]; [discriminate H|]).
  inversion H.
Defined.

(** ** Major *)

Section Major.
Context {PA : PyArith} `{!PyArithLaws PA}.

Lemma join_app (l1 l2 : list mutant_row) (kill_df : list kill_row) :
  join (l1 ++ l2) kill_df = join l1 kill_df ++ join l2 kill_df.
Proof. apply flat_map_app. Qed.

Lemma join_cons (m : mutant_row) (l : list mutant_row) (kill_df : list kill_row) :
  join (m :: l) kill_df = join [m] kill_df ++ join l kill_df.
Proof. apply (join_app [m] l). Qed.

Lemma no_partner (z : Z) (kill_df : list kill_row) :
  Forall (fun k => kill_MutantNo k <> z) kill_df ->
  filter (fun k => kill_MutantNo k = z) kill_df = [].
Proof.
  induction 1 as [|k rest Hk _ IH]; [reflexivity|].
  rewrite filter_cons, decide_False by assumption. exact IH.
Qed.


Lemma one_partner_at_most (z : Z) (kill_df : list kill_row) :
  NoDup (map kill_MutantNo kill_df) ->
  (length (filter (fun k => kill_MutantNo k = z) kill_df) <= 1)%nat.
Proof.
  induction kill_df as [|k rest IH]; cbn [map]; intros Hnd; [cbn; lia|].
  apply NoDup_cons in Hnd as [Hk Hnd]. rewrite filter_cons.
  destruct (decide (kill_MutantNo k = z)) as [<-|_]; [|auto].
  rewrite no_partner; [cbn; lia|].
  apply Forall_forall. intros k' Hin Heq. apply Hk.
  rewrite <- Heq. apply list_elem_of_fmap. eauto.
Qed.

Lemma join_one_length (m : mutant_row) (kill_df : list kill_row) :
  (1 <= length (join [m] kill_df))%nat
  /\ (NoDup (map kill_MutantNo kill_df) -> length (join [m] kill_df) = 1%nat).
Proof.
  unfold join. cbn. rewrite app_nil_r.
  pose proof (one_partner_at_most (MutantNo m) kill_df) as Hle.
  destruct (filter _ kill_df) as [|k partners]; cbn in *; [lia|].
  split; [lia|]. intros Hnd. specialize (Hle Hnd). rewrite length_map. lia.
Qed.

Lemma join_length (mutants_df : list mutant_row) (kill_df : list kill_row) :
  (length mutants_df <= length (join mutants_df kill_df))%nat
  /\ (NoDup (map kill_MutantNo kill_df) ->
      length (join mutants_df kill_df) = length mutants_df).
Proof.
  induction mutants_df as [|m rest [IHle IHeq]]; [cbn; auto|].
  rewrite join_cons, length_app. cbn [length].
  destruct (join_one_length m kill_df) as [Hle Heq]. split; [lia|].
  intros Hnd. rewrite Heq, IHeq by assumption. reflexivity.
Qed.


Lemma count_live_le (df : list (mutant_row * option string)) :
  (count_live df <= length df)%nat.
Proof. apply length_filter. Qed.

(** The record of Major for a [kill.csv] table with rows and at least one
    joined row. *)
Lemma Major_joined (kill_df : list kill_row) (mutants_df : list mutant_row) :
  kill_df <> [] ->
  join mutants_df kill_df <> [] ->
  exists r q,
    Major_get_mutation_score kill_df mutants_df = Ok r
    /\ live r = Z.of_nat (count_live (join mutants_df kill_df))
    /\ all r = Z.of_nat (length (join mutants_df kill_df))
    /\ killed r = all r - live r
    /\ int_truediv (killed r) (all r) = Some q
    /\ score r = PyFloat (py_round q 3)
    /\ score_full r = PyFloat q.
Proof.
  intros Hkill Hjoin. unfold Major_get_mutation_score.
  destruct kill_df as [|k0 kill_rest]; [contradiction|]. cbn [length Nat.eqb].
  set (df := join mutants_df (k0 :: kill_rest)) in *.
  fold (count_live df).
  pose proof (count_live_le df) as Hle.
  assert (0 < length df)%nat as Hpos by (destruct df; [contradiction|cbn; lia]).
  destruct (py_truediv_counts
              (Z.of_nat (length df) - Z.of_nat (count_live df))
              (Z.of_nat (length df)))
    as (q & -> & Hq); [lia|lia|].
  cbn. eexists _, q. split; [reflexivity|]. cbn. repeat split; auto.
Qed.

(** C5, amended. When the [kill.csv] table is empty, the parser of Major
    returns [killed = 0], [live = all] = the number of described mutants
    and [score = 0].  When it is not empty and at least one mutant is
    described, the parser returns, for the left join of the descriptions
    with the kill table on the mutant id, [live] = the number of joined
    rows with status exactly "LIVE", [all] = the number of joined rows and
    [killed = all - live]; [all] is the number of described mutants when no
    mutant id occurs twice in the kill table. *)
Theorem Major_counts (kill_df : list kill_row) (mutants_df : list mutant_row) :
  (kill_df = [] ->
   Major_get_mutation_score kill_df mutants_df
   = Ok {| killed := 0;
           live := Z.of_nat (length mutants_df);
           all := Z.of_nat (length mutants_df);
           score := PyInt 0;
           score_full := PyInt 0 |})
  /\ (kill_df <> [] ->
      mutants_df <> [] ->
      exists r,
        Major_get_mutation_score kill_df mutants_df = Ok r
        /\ live r = Z.of_nat (count_live (join mutants_df kill_df))
        /\ all r = Z.of_nat (length (join mutants_df kill_df))
        /\ killed r = all r - live r
        /\ (NoDup (map kill_MutantNo kill_df) ->
            all r = Z.of_nat (length mutants_df))).
Proof.
  split.
  - intros ->. reflexivity.
  - intros Hkill Hmut.
    destruct (join_length mutants_df kill_df) as [Hle Heq].
    destruct (Major_joined kill_df mutants_df Hkill)
      as (r & q & Hr & Hlive & Hall & Hkilled & _).
    { destruct mutants_df; [contradiction|].
      destruct (join _ _); [cbn in Hle; lia|discriminate]. }
    exists r. repeat split; auto.
    intros Hnd. rewrite Hall, Heq by assumption. reflexivity.
Qed.


End Major.

Lemma Major_counts_witness :
  exists r : score_dict,
    Major_get_mutation_score two_live five_mutants = Ok r
    /\ live r = Z.of_nat (count_live (join five_mutants two_live))
    /\ all r = Z.of_nat (length (join five_mutants two_live))
    /\ killed r = all r - live r
    /\ (NoDup (map kill_MutantNo two_live) ->
        all r = Z.of_nat (length five_mutants)).
Proof.
  apply (proj2 (Major_counts (PA := exact_arith) two_live five_mutants));
    discriminate.
Defined.


(** C5 as stated fails twice.  With rows in [kill.csv] and no described
    mutant, the parser raises [ZeroDivisionError] instead of returning;
    with two rows of [kill.csv] for one described mutant, [all] is [2],
    not the number of described mutants. *)
Lemma Major_counts_as_stated_fail :
  Major_get_mutation_score (PA := exact_arith)
    [ {| kill_MutantNo := 1; Status := Some "LIVE" |} ] []
  = Raise ZeroDivisionError
  /\ (exists r : score_dict,
        Major_get_mutation_score (PA := exact_arith)
          [ {| kill_MutantNo := 1; Status := Some "LIVE" |};
            {| kill_MutantNo := 1; Status := Some "FAIL" |} ]
          [described 1]
        = Ok r
        /\ all r = 2
        /\ all r <> Z.of_nat (length [described 1])).
Proof.
  split; [reflexivity|]. eexists. split; [reflexivity|].
  vm_compute. split; [reflexivity|discriminate].
Qed.

(** ** The matcher *)

Lemma single_Some (cond : ascii -> bool)
    (k : list ascii -> option (list (list ascii) * list ascii))
    (s rest : list ascii) (segs : list (list ascii)) :
  single cond k s = Some (segs, rest) ->
  exists c s' segs',
    s = c :: s' /\ cond c = true /\ segs = [c] :: segs'
    /\ k s' = Some (segs', rest).
Proof.
  destruct s as [|c s']; cbn; [discriminate|].
  destruct (cond c) eqn:Hc; [|discriminate].
  destruct (k s') as [[segs' rest']|] eqn:Hk; [|discriminate].
  intros [= <- <-]. eauto 10.
Qed.

Lemma backtrack_Some (k : list ascii -> option (list (list ascii) * list ascii))
    (lo extra : nat) (s rest : list ascii) (segs : list (list ascii)) :
  backtrack k lo extra s = Some (segs, rest) ->
  exists n segs',
    (lo <= n <= lo + extra)%nat /\ segs = take n s :: segs'
    /\ k (drop n s) = Some (segs', rest).
Proof.
  induction extra as [|extra IH]; cbn [backtrack];
    destruct (k (drop _ s)) as [[segs' rest']|] eqn:Hk.
  - intros [= <- <-]. exists (lo + 0)%nat, segs'. split; [lia|auto].
  - discriminate.
  - intros [= <- <-]. exists (lo + S extra)%nat, segs'. split; [lia|auto].
  - intros H. destruct (IH H) as (n & segs' & Hn & Hsegs & Hk').
    exists n, segs'. split; [lia|auto].
Qed.

(** The first try of a repetition that succeeds is the one kept. *)
Lemma backtrack_first (k : list ascii -> option (list (list ascii) * list ascii))
    (lo extra : nat) (s rest : list ascii) (segs : list (list ascii)) :
  k (drop (lo + extra) s) = Some (segs, rest) ->
  backtrack k lo extra s = Some (take (lo + extra) s :: segs, rest).
Proof. intros H. destruct extra; cbn [backtrack]; rewrite H; reflexivity. Qed.

(** A match is a prefix of the text, cut into the texts of the atoms. *)
Lemma match_here_split (p : pattern) (s rest : list ascii)
    (segs : list (list ascii)) :
  match_here p s = Some (segs, rest) -> concat segs ++ rest = s.
Proof.
  revert s segs rest.
  induction p as [|a p IH]; intros s segs rest; cbn [match_here].
  - intros [= <- <-]. reflexivity.
  - destruct a as [c|cls|cls|cls].
    + intros H. apply single_Some in H as (x & s' & segs' & -> & _ & -> & Hk).
      cbn. f_equal. apply IH, Hk.
    + intros H. apply single_Some in H as (x & s' & segs' & -> & _ & -> & Hk).
      cbn. f_equal. apply IH, Hk.
    + intros H. apply backtrack_Some in H as (n & segs' & _ & -> & Hk).
      cbn. rewrite <- app_assoc, (IH _ _ _ Hk). apply take_drop.
    + destruct (run_length cls s) as [|extra]; [discriminate|].
      intros H. apply backtrack_Some in H as (n & segs' & _ & -> & Hk).
      cbn. rewrite <- app_assoc, (IH _ _ _ Hk). apply take_drop.
Qed.

Lemma search_split (p : pattern) (s pre post : list ascii)
    (segs : list (list ascii)) :
  search p s = Some (pre, segs, post) ->
  pre ++ concat segs ++ post = s
  /\ match_here p (concat segs ++ post) = Some (segs, post).
Proof.
  revert pre. induction s as [|c s IH]; intros pre; cbn [search].
  - destruct (match_here p []) as [[segs' post']|] eqn:Hm; [|discriminate].
    intros [= <- <- <-]. rewrite (match_here_split _ _ _ _ Hm). auto.
  - destruct (match_here p (c :: s)) as [[segs' post']|] eqn:Hm.
    + intros [= <- <- <-]. rewrite (match_here_split _ _ _ _ Hm). auto.
    + destruct (search p s) as [[[pre' segs'] post']|]; [|discriminate].
      intros [= <- <- <-]. destruct (IH pre' eq_refl) as [<- Hm'].
      auto.
Qed.

Lemma never_empty_Lit (c : ascii) (p : pattern) : never_empty (Lit c :: p).
Proof.
  intros s segs rest H. cbn [match_here] in H.
  apply single_Some in H as (x & s' & segs' & _ & _ & -> & _). discriminate.
Qed.

Lemma live_mutant_pattern_never_empty : never_empty live_mutant_pattern.
Proof. apply never_empty_Lit. Qed.

Lemma whitespace_pattern_never_empty : never_empty whitespace_pattern.
Proof.
  intros s segs rest H. unfold whitespace_pattern in H. cbn [match_here] in H.
  destruct s as [|c s]; [discriminate|]. cbn [run_length] in H.
  destruct (is_space c); [|discriminate].
  apply backtrack_Some in H as (n & segs' & Hn & -> & _).
  destruct n as [|n]; [lia|]. discriminate.
Qed.

(** ** Deleting the matches *)

Lemma subn_from_skip (p : pattern) (m post : list ascii) :
  subn_from p (length m) (m ++ post) = subn_from p O post.
Proof. induction m as [|c m IH]; [reflexivity|exact IH]. Qed.

Lemma subn_search_None (p : pattern) (s : list ascii) :
  search p s = None -> subn p s = (s, O).
Proof.
  unfold subn. induction s as [|c s IH]; [reflexivity|].
  cbn [search subn_from]. unfold match_length.
  destruct (match_here p (c :: s)) as [[? ?]|]; [discriminate|].
  destruct (search p s) as [[[? ?] ?]|]; [discriminate|].
  intros _. rewrite IH by reflexivity. reflexivity.
Qed.

Lemma subn_search_Some (p : pattern) (s pre post : list ascii)
    (segs : list (list ascii)) :
  search p s = Some (pre, segs, post) ->
  concat segs <> [] ->
  subn p s = (pre ++ fst (subn p post), S (snd (subn p post))).
Proof.
  unfold subn. revert pre.
  induction s as [|c s IH]; intros pre; cbn [search].
  - destruct (match_here p []) as [[segs' post']|] eqn:Hm; [|discriminate].
    intros [= <- <- <-] Hne. apply match_here_split in Hm.
    apply app_eq_nil in Hm as [Hm _]. contradiction.
  - cbn [subn_from]. unfold match_length.
    destruct (match_here p (c :: s)) as [[segs' post']|] eqn:Hm.
    + intros [= <- <- <-] Hne. apply match_here_split in Hm.
      destruct (concat segs') as [|x m]; [contradiction|].
      injection Hm as -> <-. cbn [length].
      rewrite subn_from_skip. destruct (subn_from p O post'). reflexivity.
    + destruct (search p s) as [[[pre' segs'] post']|]; [|discriminate].
      intros [= <- <- <-] Hne. rewrite (IH pre' eq_refl Hne).
      reflexivity.
Qed.

(** [subn] deletes the matches found from left to right. *)
Lemma subn_deletes (p : pattern) (s : list ascii) :
  never_empty p -> deletes p s (snd (subn p s)) (fst (subn p s)).
Proof.
  intros Hp. remember (length s) as len eqn:Hlen.
  revert s Hlen. induction len as [len IH] using lt_wf_ind. intros s ->.
  destruct (search p s) as [[[pre segs] post]|] eqn:Hs.
  - destruct (search_split _ _ _ _ _ Hs) as [Hsplit Hm].
    pose proof (Hp _ _ _ Hm) as Hne.
    rewrite (subn_search_Some _ _ _ _ _ Hs Hne). cbn [fst snd].
    apply (deletes_match p s pre post _ segs); auto.
    apply (IH (length post)); [|reflexivity].
    rewrite <- Hsplit, !length_app.
    destruct (concat segs); [contradiction|]. cbn. lia.
  - rewrite (subn_search_None _ _ Hs). apply deletes_none, Hs.
Qed.

Lemma deletes_unique (p : pattern) (s t t' : list ascii) (n n' : nat) :
  deletes p s n t -> deletes p s n' t' -> n = n' /\ t = t'.
Proof.
  intros H. revert n' t'.
  induction H as [s Hs|s pre post t segs n Hs Hne _ IH]; intros n' t' H'.
  - inversion H' as [? Hs'|? ? ? ? ? ? Hs']; subst; [auto|congruence].
  - inversion H' as [? Hs'|? pre' post' t'' segs' n'' Hs' Hne' Hd]; subst.
    + congruence.
    + rewrite Hs in Hs'. injection Hs' as <- <- <-.
      destruct (IH _ _ Hd) as [-> ->]. auto.
Qed.

(** Deleting the runs of white space leaves the other characters. *)
Lemma match_length_whitespace (s : list ascii) :
  match_length whitespace_pattern s
  = match run_length is_space s with
    | O => None
    | S extra => Some (S extra)
    end.
Proof.
  unfold match_length, whitespace_pattern. cbn [match_here].
  pose proof (length_take_le s (run_length is_space s)) as Htake.
  assert (run_length is_space s <= length s)%nat as Hle.
  { clear. induction s as [|c s IH]; cbn; [lia|]. destruct (is_space c); cbn; lia. }
  destruct (run_length is_space s) as [|extra]; [reflexivity|].
  rewrite (backtrack_first _ 1 extra s (drop (1 + extra) s) []) by reflexivity.
  cbn [concat]. change (1 + extra)%nat with (S extra).
  rewrite app_nil_r, Htake by exact Hle. reflexivity.
Qed.

Lemma subn_from_whitespace (skip : nat) (s : list ascii) :
  (skip <= run_length is_space s)%nat ->
  fst (subn_from whitespace_pattern skip s) = non_space s.
Proof.
  revert skip. induction s as [|c s IH]; intros skip Hskip; [reflexivity|].
  cbn [subn_from]. unfold non_space in *. rewrite filter_cons.
  cbn [run_length] in Hskip. destruct skip as [|skip].
  - rewrite match_length_whitespace. cbn [run_length].
    destruct (is_space c) eqn:Hc.
    + specialize (IH (run_length is_space s) (Nat.le_refl _)).
      destruct (subn_from _ _ s). rewrite decide_False by discriminate.
      exact IH.
    + specialize (IH O (Nat.le_0_l _)).
      destruct (subn_from _ _ s). rewrite decide_True by reflexivity.
      cbn in *. f_equal. exact IH.
  - destruct (is_space c) eqn:Hc; [|lia].
    rewrite decide_False by discriminate. apply IH. lia.
Qed.

Lemma sub_whitespace (s : list ascii) : sub whitespace_pattern s = non_space s.
Proof. apply subn_from_whitespace. lia. Qed.

(** ** Jumble *)

Section Jumble.
Context {PA : PyArith} `{!PyArithLaws PA}.

Lemma deletes_total (region : list ascii) :
  exists n killed_text, deletes live_mutant_pattern region n killed_text.
Proof.
  eexists _, _. apply subn_deletes, live_mutant_pattern_never_empty.
Qed.

Lemma Jumble_region_between (text before after region rest : list ascii)
    (start_match end_match : list (list ascii)) :
  search start_pattern text = Some (before, start_match, after) ->
  search end_pattern after = Some (region, end_match, rest) ->
  Jumble_region text = Some region
  /\ text = before ++ concat start_match ++ region ++ concat end_match ++ rest.
Proof.
  intros Hs He. unfold Jumble_region. rewrite Hs, He. split; [reflexivity|].
  apply search_split in Hs as [<- _]. apply search_split in He as [<- _].
  reflexivity.
Qed.

(** The record for a region with at least one mutant. *)
Lemma Jumble_score_of_region (text : string) (region : list ascii) :
  Jumble_region (chars text) = Some region ->
  let live_count := snd (subn live_mutant_pattern region) in
  let killed_count :=
    length (non_space (fst (subn live_mutant_pattern region))) in
  (0 < live_count + killed_count)%nat ->
  exists r q,
    Jumble_get_mutation_score text = Ok r
    /\ live r = Z.of_nat live_count
    /\ killed r = Z.of_nat killed_count
    /\ all r = killed r + live r
    /\ int_truediv (killed r) (all r) = Some q
    /\ score r = PyFloat (py_round q 3).
Proof.
  intros Hregion live_count killed_count Hpos.
  unfold Jumble_get_mutation_score. rewrite Hregion.
  subst live_count killed_count.
  destruct (subn live_mutant_pattern region) as [killed_text n].
  cbn [fst snd] in *. rewrite sub_whitespace.
  destruct (py_truediv_counts
              (Z.of_nat (length (non_space killed_text)))
              (Z.of_nat n + Z.of_nat (length (non_space killed_text))))
    as (q & -> & Hq); [lia|lia|].
  cbn. eexists _, q. split; [reflexivity|]. cbn.
  repeat split; auto; lia.
Qed.

(** Without a region, the handler reports the reason of the line
    [Score: <digit>% (<reason>] and names the verbose script. *)
Lemma Jumble_reports_reason (text : string) (before rest : list ascii)
    (score_match : list (list ascii)) :
  Jumble_region (chars text) = None ->
  search error_pattern (chars text) = Some (before, score_match, rest) ->
  Jumble_get_mutation_score text
  = Raise (RuntimeError
             ("Cannot find start pattern. Jumble message: "
              +:+ string_of_list_ascii (default [] (last score_match))
              +:+ String "010" "Try running the verbose script to get more detailed information: "
              +:+ "jumble_verbose.sh")).
Proof.
  intros Hregion Herr. unfold Jumble_get_mutation_score.
  rewrite Hregion, Herr. reflexivity.
Qed.

(** The transcript of a crash: the reason and the verbose script are in
    the message. *)
Lemma Jumble_engine_crashed :
  Jumble_get_mutation_score crashed_transcript
  = Raise (RuntimeError
             ("Cannot find start pattern. Jumble message: engine crashed"
              +:+ String "010" "Try running the verbose script to get more detailed information: jumble_verbose.sh")).
Proof. vm_compute. reflexivity. Qed.

(** C3, amended. For every transcript with the start marker and, after
    it, the end marker, and with at least one mutant between them, the
    parser of Jumble returns [live] = the number of matches of the
    live-mutant pattern in the region between the markers, [killed] = the
    number of characters other than white space that are left of the
    region once these matches are deleted, and [all = killed + live].  The
    region [three_fails_five_dots] gives [killed = 5], [live = 3] and
    [all = 8]. *)
Theorem Jumble_counts_between_markers (text : string)
    (before after region rest : list ascii)
    (start_match end_match : list (list ascii))
    (n : nat) (killed_text : list ascii) :
  search start_pattern (chars text) = Some (before, start_match, after) ->
  search end_pattern after = Some (region, end_match, rest) ->
  deletes live_mutant_pattern region n killed_text ->
  (0 < n + length (non_space killed_text))%nat ->
  (exists r,
     Jumble_get_mutation_score text = Ok r
     /\ live r = Z.of_nat n
     /\ killed r = Z.of_nat (length (non_space killed_text))
     /\ all r = killed r + live r)
  /\ (exists r,
        Jumble_get_mutation_score (transcript three_fails_five_dots) = Ok r
        /\ killed r = 5 /\ live r = 3 /\ all r = 8).
Proof.
  intros Hstart Hend Hdel Hpos. split.
  - destruct (Jumble_region_between _ _ _ _ _ _ _ Hstart Hend) as [Hregion _].
    pose proof (subn_deletes live_mutant_pattern region
                  live_mutant_pattern_never_empty) as Hsubn.
    destruct (deletes_unique _ _ _ _ _ _ Hdel Hsubn) as [Hn Ht].
    destruct (Jumble_score_of_region text region Hregion)
      as (r & q & Hr & Hlive & Hkilled & Hall & _).
    { rewrite <- Hn, <- Ht. exact Hpos. }
    exists r. rewrite Hn, Ht. auto.
  - assert (Jumble_region (chars (transcript three_fails_five_dots))
            = Some (chars three_fails_five_dots)) as Hregion
      by (vm_compute; reflexivity).
    assert (subn live_mutant_pattern (chars three_fails_five_dots)
            = (chars five_dots_left, 3%nat)) as Hsubn
      by (vm_compute; reflexivity).
    destruct (Jumble_score_of_region _ _ Hregion)
      as (r & q & Hr & Hlive & Hkilled & Hall & _).
    { rewrite Hsubn. vm_compute. lia. }
    exists r. rewrite Hsubn in Hlive, Hkilled.
    split; [exact Hr|]. rewrite Hall, Hkilled, Hlive. vm_compute. auto.
Qed.

(** C4, the code at a transcript that has no start marker and whose
    [Score:] line shows a percentage of three digits: the pattern of the
    handler asks for one digit before the percent sign, finds no such
    line, and [AttributeError] leaves the parser instead of the
    [RuntimeError] that carries the reason. *)
Theorem Jumble_three_digit_score_unreported :
  search start_pattern (chars interface_transcript) = None
  /\ search error_pattern (chars interface_transcript) = None
  /\ Jumble_get_mutation_score interface_transcript = Raise AttributeError.
Proof. repeat split; vm_compute; reflexivity. Qed.

End Jumble.

Lemma Jumble_counts_between_markers_witness :
  (exists r : score_dict,
     Jumble_get_mutation_score (transcript three_fails_five_dots) = Ok r
     /\ live r = Z.of_nat 3
     /\ killed r = Z.of_nat (length (non_space (chars five_dots_left)))
     /\ all r = killed r + live r)
  /\ (exists r : score_dict,
        Jumble_get_mutation_score (transcript three_fails_five_dots) = Ok r
        /\ killed r = 5 /\ live r = 3 /\ all r = 8).
Proof.
  eapply (Jumble_counts_between_markers (PA := exact_arith)
            (transcript three_fails_five_dots) _ _
            (chars three_fails_five_dots) _ _ _ 3%nat (chars five_dots_left)).
  - vm_compute. reflexivity.
  - vm_compute. reflexivity.
  - exact (subn_deletes live_mutant_pattern (chars three_fails_five_dots)
             live_mutant_pattern_never_empty).
  - vm_compute. lia.
Defined.

(** C3 as stated fails twice.  With no mutant between the markers the
    parser raises [ZeroDivisionError] instead of returning.  With dots in
    front of a live mutant on its line, the parser returns [killed = 2]
    and [live = 1], which are not the counts by whole lines: no line
    matches the pattern at its start, and the line in which the pattern is
    found holds all the characters. *)
Lemma Jumble_counts_as_stated_fail :
  (Jumble_region (chars (transcript no_mutant)) = Some (chars no_mutant)
   /\ Jumble_get_mutation_score (PA := exact_arith) (transcript no_mutant)
      = Raise ZeroDivisionError)
  /\ (Jumble_region (chars (transcript dots_before_fail))
      = Some (chars dots_before_fail)
      /\ (exists r : score_dict,
            Jumble_get_mutation_score (PA := exact_arith)
              (transcript dots_before_fail) = Ok r
            /\ killed r = 2 /\ live r = 1)
      /\ counts_by_line matches_at_start (chars dots_before_fail)
         = (37%nat, 0%nat)
      /\ counts_by_line matches_somewhere (chars dots_before_fail)
         = (0%nat, 1%nat)).
Proof.
  split; [split; vm_compute; reflexivity|].
  split; [vm_compute; reflexivity|].
  split; [|split; vm_compute; reflexivity].
  eexists. split; [vm_compute; reflexivity|]. split; reflexivity.
Qed.

(** ** The key=value reader *)

Lemma lstrip_head (s : list ascii) :
  match lstrip s with
  | [] => True
  | c :: _ => is_space c = false
  end.
Proof.
  induction s as [|c s IH]; cbn; [exact I|].
  destruct (is_space c) eqn:Hc; [exact IH|exact Hc].
Qed.

Lemma lstrip_fixed (s : list ascii) :
  match s with
  | [] => True
  | c :: _ => is_space c = false
  end ->
  lstrip s = s.
Proof. destruct s as [|c s]; cbn; [reflexivity|]. intros ->. reflexivity. Qed.

(** [lstrip] keeps the end of the text. *)
Lemma lstrip_suffix (s : list ascii) : exists dropped, s = dropped ++ lstrip s.
Proof.
  induction s as [|c s [dropped IH]]; cbn; [exists []; reflexivity|].
  destruct (is_space c); [|exists []; reflexivity].
  exists (c :: dropped). cbn. f_equal. exact IH.
Qed.

Lemma strip_idempotent (s : list ascii) : strip (strip s) = strip s.
Proof.
  unfold strip. f_equal.
  set (a := lstrip s). set (b := lstrip (reverse a)).
  assert (lstrip (reverse b) = reverse b) as ->.
  { apply lstrip_fixed.
    destruct (lstrip_suffix (reverse a)) as [dropped Hd]. fold b in Hd.
    apply (f_equal reverse) in Hd. rewrite reverse_involutive, reverse_app in Hd.
    pose proof (lstrip_head s) as Ha. fold a in Ha.
    pose proof (lstrip_head (reverse a)) as Hb. fold b in Hb.
    destruct (reverse b) as [|x rb] eqn:Hrb; [exact I|].
    rewrite Hd in Ha. exact Ha. }
  rewrite reverse_involutive. apply lstrip_fixed, lstrip_head.
Qed.

Lemma split_first_equals_sign (s : list ascii) :
  split_first (chars "=") s
  = match from_first not_equals_sign s with
    | [] => None
    | _ :: value => Some (before_first not_equals_sign s, value)
    end.
Proof.
  induction s as [|c s IH]; [reflexivity|].
  cbn [split_first from_first before_first].
  change (starts_with (chars "=") (c :: s)) with (Ascii.eqb "=" c && true).
  unfold not_equals_sign at 1 3. rewrite andb_true_r, (Ascii.eqb_sym c).
  destruct (Ascii.eqb "=" c); cbn [negb]; [reflexivity|].
  rewrite IH. destruct (from_first not_equals_sign s); reflexivity.
Qed.

(** One turn of the loop assigns the pair of the line, if it has one. *)
Lemma read_config_line_pair (res : gmap string string) (line : list ascii) :
  read_config_line "=" res line
  = Ok match config_pair line with
       | Some (key, value) => <[key := value]> res
       | None => res
       end.
Proof.
  unfold read_config_line, config_pair. rewrite strip_idempotent.
  destruct (strip line) as [|c rest] eqn:Hline; [reflexivity|].
  cbn [length Nat.eqb orb].
  change (starts_with (chars "#") (c :: rest)) with (Ascii.eqb "#" c && true).
  rewrite andb_true_r, (Ascii.eqb_sym c).
  destruct (Ascii.eqb "#" c); [reflexivity|].
  unfold split_maxsplit1. change (chars "=") with ["="%char].
  change ["="%char] with (chars "="). rewrite split_first_equals_sign.
  destruct (from_first not_equals_sign (c :: rest)); reflexivity.
Qed.

Lemma read_config_loop_pairs (res : gmap string string)
    (lines : list (list ascii)) :
  read_config_loop "=" res lines
  = Ok (foldl (fun d kv => <[fst kv := snd kv]> d) res
          (omap config_pair lines)).
Proof.
  revert res. induction lines as [|line lines IH]; intros res; [reflexivity|].
  cbn [read_config_loop]. rewrite read_config_line_pair. cbn [bind].
  rewrite IH. change (omap config_pair (line :: lines))
    with (match config_pair line with
          | Some kv => kv :: omap config_pair lines
          | None => omap config_pair lines
          end).
  destruct (config_pair line) as [[key value]|]; reflexivity.
Qed.

(** The contract on one line. *)
Lemma config_pair_blank (line : list ascii) :
  strip line = [] -> config_pair line = None.
Proof. unfold config_pair. intros ->. reflexivity. Qed.

Lemma config_pair_comment (line rest : list ascii) :
  strip line = "#"%char :: rest -> config_pair line = None.
Proof. unfold config_pair. intros ->. reflexivity. Qed.

Lemma from_first_without (s : list ascii) :
  "="%char ∉ s -> from_first not_equals_sign s = [].
Proof.
  induction s as [|c s IH]; [reflexivity|]. intros Hnot. cbn.
  unfold not_equals_sign at 1. destruct (Ascii.eqb_spec c "=") as [->|_].
  - exfalso. apply Hnot. left.
  - cbn. apply IH. intros Hin. apply Hnot. right. exact Hin.
Qed.

Lemma config_pair_no_separator (line : list ascii) :
  "="%char ∉ strip line -> config_pair line = None.
Proof.
  unfold config_pair. intros Hnot. destruct (strip line) as [|c rest]; [reflexivity|].
  rewrite from_first_without by assumption. destruct (Ascii.eqb c "#"); reflexivity.
Qed.

Lemma first_equals_sign (key value : list ascii) :
  "="%char ∉ key ->
  before_first not_equals_sign (key ++ "="%char :: value) = key
  /\ from_first not_equals_sign (key ++ "="%char :: value)
     = "="%char :: value.
Proof.
  induction key as [|c key IH]; [split; reflexivity|]. intros Hnot. cbn.
  unfold not_equals_sign at 1 3. destruct (Ascii.eqb_spec c "=") as [->|_].
  - exfalso. apply Hnot. left.
  - cbn. destruct IH as [-> ->]; [|auto].
    intros Hin. apply Hnot. right. exact Hin.
Qed.

Lemma config_pair_split (line key value : list ascii) :
  strip line = key ++ "="%char :: value ->
  "="%char ∉ key ->
  ~ (exists rest, key = "#"%char :: rest) ->
  config_pair line
  = Some (string_of_list_ascii (strip key), string_of_list_ascii (strip value)).
Proof.
  unfold config_pair. intros -> Hkey Hcomment.
  destruct (first_equals_sign key value Hkey) as [Hb Hf].
  destruct (key ++ "="%char :: value) as [|c rest] eqn:Hline.
  { destruct key; discriminate. }
  destruct (Ascii.eqb_spec c "#") as [->|_].
  { exfalso. destruct key as [|x key]; [discriminate|].
    injection Hline as -> _. apply Hcomment. eauto. }
  rewrite Hf, Hb. reflexivity.
Qed.

(** C9, amended. For every text of a config file, [read_config] returns
    the dict of the pairs of its lines, assigned in order, and no line
    makes it raise.  White space around a line does not count: a line
    gives no pair when nothing else is in it, when [#] comes first in it
    and when it holds no [=]; otherwise it gives the key before its first
    [=] and the value after it, both without the white space around
    them. *)
Theorem read_config_is_dict_of_pairs (text : string) :
  read_config text "=" = Ok (dict_of_pairs (config_pairs text))
  /\ (forall line, strip line = [] -> config_pair line = None)
  /\ (forall line rest,
        strip line = "#"%char :: rest -> config_pair line = None)
  /\ (forall line, "="%char ∉ strip line -> config_pair line = None)
  /\ (forall line key value,
        strip line = key ++ "="%char :: value ->
        "="%char ∉ key ->
        ~ (exists rest, key = "#"%char :: rest) ->
        config_pair line
        = Some (string_of_list_ascii (strip key),
                string_of_list_ascii (strip value))).
Proof.
  split; [apply read_config_loop_pairs|].
  split; [apply config_pair_blank|].
  split; [apply config_pair_comment|].
  split; [apply config_pair_no_separator|apply config_pair_split].
Qed.

Lemma read_config_is_dict_of_pairs_witness :
  read_config example_config "="
  = Ok (dict_of_pairs (config_pairs example_config))
  /\ config_pair (chars "  pid = Lang ") = Some ("pid", "Lang").
Proof.
  split.
  - exact (proj1 (read_config_is_dict_of_pairs example_config)).
  - apply (proj2 (proj2 (proj2 (proj2
              (read_config_is_dict_of_pairs example_config))))
             (chars "  pid = Lang ") (chars "pid ") (chars " Lang")).
    + reflexivity.
    + intros H. repeat (apply elem_of_cons in H as [H|H]; [discriminate H|]).
      inversion H.
    + intros [rest H]. discriminate H.
Defined.

(** The dict of [example_config]: the later [pid] replaces the earlier
    one, and the value keeps its own [=]. *)
Lemma read_config_example :
  read_config example_config "="
  = Ok {[ "pid" := "Math"; "d4j.classes.relevant" := "org.Foo=Bar" ]}.
Proof. vm_compute. reflexivity. Qed.

(** C9 as stated fails twice.  A line with a blank before its [#] does
    not start with [#] and holds a [=], and gives no pair; and the key
    and the value of [a = b] are not the texts before and after the
    [=]. *)
Lemma read_config_as_stated_fails :
  (read_config " #k=v" "=" = Ok ∅
   /\ dict_of_pairs (stated_pairs " #k=v") = {[ " #k" := "v" ]})
  /\ (read_config "a = b" "=" = Ok {[ "a" := "b" ]}
      /\ dict_of_pairs (stated_pairs "a = b") = {[ "a " := " b" ]}).
Proof. repeat split; vm_compute; reflexivity. Qed.

(** * Properties of the rest of the code *)

(** ** [str.replace] *)

Lemma starts_with_app (p s : list ascii) : starts_with p (p ++ s) = true.
Proof.
  induction p as [|a p IH]; [reflexivity|]. cbn.
  rewrite IH, andb_true_r. apply Ascii.eqb_refl.
Qed.

Lemma starts_with_true (p s : list ascii) :
  starts_with p s = true -> s = p ++ drop (length p) s.
Proof.
  revert s. induction p as [|a p IH]; intros s; [reflexivity|].
  destruct s as [|c s]; cbn; [discriminate|].
  intros H. apply andb_true_iff in H as [Hc Hp].
  apply Ascii.eqb_eq in Hc as ->. f_equal. apply IH, Hp.
Qed.

Lemma replace_from_skip (old new m rest : list ascii) :
  replace_from old new (length m) (m ++ rest) = replace_from old new O rest.
Proof. induction m as [|c m IH]; [reflexivity|exact IH]. Qed.

(** A text without the first character of [old] passes unchanged. *)
Lemma replace_from_pass (x : ascii) (old new s rest : list ascii) :
  x ∉ s ->
  replace_from (x :: old) new O (s ++ rest)
  = s ++ replace_from (x :: old) new O rest.
Proof.
  induction s as [|c s IH]; intros Hnot; [reflexivity|].
  cbn [app replace_from starts_with].
  destruct (Ascii.eqb_spec x c) as [->|_].
  - exfalso. apply Hnot. left.
  - cbn [andb]. f_equal. apply IH. intros Hin. apply Hnot. right. exact Hin.
Qed.

(** An occurrence of [old] at the front is replaced. *)
Lemma replace_from_hit (x : ascii) (old new rest : list ascii) :
  replace_from (x :: old) new O (x :: old ++ rest)
  = new ++ replace_from (x :: old) new O rest.
Proof.
  cbn [replace_from].
  change (x :: old ++ rest) with ((x :: old) ++ rest).
  rewrite starts_with_app.
  replace (length (x :: old) - 1)%nat with (length old) by (cbn; lia).
  rewrite replace_from_skip. reflexivity.
Qed.

(** A flag other than [old] passes unchanged. *)
Lemma replace_from_other_flag (old new body rest : list ascii) :
  no_bracket body ->
  starts_with ("<"%char :: old) (("<"%char :: body) ++ rest) = false ->
  replace_from ("<"%char :: old) new O (("<"%char :: body) ++ rest)
  = ("<"%char :: body) ++ replace_from ("<"%char :: old) new O rest.
Proof.
  intros Hbody Hmiss. cbn [app replace_from]. cbn [app] in Hmiss.
  rewrite Hmiss. f_equal. apply replace_from_pass, Hbody.
Qed.

Lemma chars_string (l : list ascii) : chars (string_of_list_ascii l) = l.
Proof. apply list_ascii_of_string_of_list_ascii. Qed.

Section Flags.
Variable tokens : list (list ascii).
Hypothesis tokens_flags : Forall is_flag tokens.
Hypothesis tokens_prefix_free : prefix_free tokens.

(** Replacing one flag of a script fills its places and nothing else. *)
Lemma replace_pieces (pieces : list piece) (token value : list ascii) :
  token ∈ tokens ->
  Forall (well_formed tokens) pieces ->
  str_replace (render pieces) token value
  = render (map (fill token value) pieces).
Proof.
  intros Htoken Hwf.
  destruct (proj1 (Forall_forall _ _) tokens_flags token Htoken)
    as (body & -> & Hbody).
  unfold str_replace. unfold render.
  induction Hwf as [|p pieces Hp _ IH]; [reflexivity|].
  cbn [map concat]. destruct p as [s|token']; cbn [render_piece fill] in *.
  - rewrite replace_from_pass by exact Hp. f_equal. exact IH.
  - destruct (proj1 (Forall_forall _ _) tokens_flags token' Hp)
      as (body' & -> & Hbody').
    case_bool_decide as Heq.
    + rewrite Heq. cbn [app]. rewrite replace_from_hit.
      cbn [render_piece]. f_equal. exact IH.
    + cbn [render_piece]. rewrite replace_from_other_flag; [f_equal; exact IH|exact Hbody'|].
      destruct (starts_with _ _) eqn:Hs; [|reflexivity].
      exfalso. apply Heq. symmetry.
      apply (tokens_prefix_free _ _ _ Htoken Hp Hs).
Qed.

Lemma fill_well_formed (pieces : list piece) (token value : list ascii) :
  no_bracket value ->
  Forall (well_formed tokens) pieces ->
  Forall (well_formed tokens) (map (fill token value) pieces).
Proof.
  intros Hvalue Hwf. apply Forall_fmap. eapply Forall_impl; [exact Hwf|].
  intros [s|token'] Hp; cbn; [exact Hp|].
  case_bool_decide; [exact Hvalue|exact Hp].
Qed.

End Flags.

Lemma Jumble_flags_are_flags : Forall is_flag Jumble_flags.
Proof.
  repeat (constructor;
          [eexists; split; [reflexivity|];
           intros H; repeat (apply elem_of_cons in H as [H|H]; [discriminate H|]);
           inversion H|]).
  constructor.
Qed.

Lemma Pit_flags_are_flags : Forall is_flag Pit_flags.
Proof.
  repeat (constructor;
          [eexists; split; [reflexivity|];
           intros H; repeat (apply elem_of_cons in H as [H|H]; [discriminate H|]);
           inversion H|]).
  constructor.
Qed.

Ltac member_cases H :=
  repeat (apply elem_of_cons in H as [H|H]; [subst|]);
  [..|apply elem_of_nil in H; contradiction].

Lemma Jumble_flags_prefix_free : prefix_free Jumble_flags.
Proof.
  intros t t' rest Ht Ht' Hs. unfold Jumble_flags in *.
  member_cases Ht; member_cases Ht'; try reflexivity;
    vm_compute in Hs; discriminate Hs.
Qed.

Lemma Pit_flags_prefix_free : prefix_free Pit_flags.
Proof.
  intros t t' rest Ht Ht' Hs. unfold Pit_flags in *.
  member_cases Ht; member_cases Ht'; try reflexivity;
    vm_compute in Hs; discriminate Hs.
Qed.

(** ** [Tool.replace], [Jumble.setup], [Pit.setup] *)

Lemma str_replace_absent (s old new : list ascii) :
  (forall before after, s <> before ++ old ++ after) ->
  str_replace s old new = s.
Proof.
  intros Habsent. destruct old as [|x old].
  { exfalso. apply (Habsent [] s). reflexivity. }
  unfold str_replace.
  induction s as [|c s IH]; [reflexivity|].
  cbn [replace_from].
  destruct (starts_with (x :: old) (c :: s)) eqn:Hs.
  - exfalso. apply starts_with_true in Hs.
    apply (Habsent [] (drop (length (x :: old)) (c :: s))). exact Hs.
  - f_equal. apply IH. intros before after ->.
    apply (Habsent (c :: before) after). reflexivity.
Qed.

(** X1. [Tool.replace] leaves a script as it is when none of the flags of
    the mapping occurs in it. *)
Theorem Tool_replace_without_flags (mapping : list (string * flag))
    (content : list ascii) :
  Forall (fun entry =>
            forall before after,
              content <> before ++ chars (original (snd entry)) ++ after)
         mapping ->
  Tool_replace mapping (string_of_list_ascii content)
  = string_of_list_ascii content.
Proof.
  unfold Tool_replace. induction 1 as [|entry mapping Hentry _ IH];
    [reflexivity|].
  cbn [map fold_left]. unfold py_replace at 2.
  rewrite chars_string, str_replace_absent by exact Hentry. exact IH.
Qed.

Lemma Tool_replace_without_flags_witness :
  Tool_replace
    [("tests", {| original := "<REPLACE_TESTS>"; replacement := "org.FooTest" |})]
    (string_of_list_ascii (chars "echo done"))
  = string_of_list_ascii (chars "echo done").
Proof.
  apply (Tool_replace_without_flags
           [("tests", {| original := "<REPLACE_TESTS>";
                         replacement := "org.FooTest" |})]
           (chars "echo done")).
  constructor; [|constructor].
  intros before after H. cbn [snd original] in H.
  assert ("<"%char ∈ chars "echo done") as Hin.
  { rewrite H. apply elem_of_app. right. left. }
  repeat (apply elem_of_cons in Hin as [Hin|Hin]; [discriminate Hin|]).
  inversion Hin.
Defined.

Lemma py_replace_pieces (tokens : list (list ascii)) (pieces : list piece)
    (token value : string) :
  Forall is_flag tokens -> prefix_free tokens ->
  chars token ∈ tokens ->
  Forall (well_formed tokens) pieces ->
  py_replace (string_of_list_ascii (render pieces)) token value
  = string_of_list_ascii
      (render (map (fill (chars token) (chars value)) pieces)).
Proof.
  intros Hflags Hfree Htoken Hwf. unfold py_replace.
  rewrite chars_string, (replace_pieces tokens) by assumption. reflexivity.
Qed.

(** X2. [Jumble.setup] on a template whose texts hold no [<] and whose
    flags are the three of Jumble, with arguments [tests] and [class]
    that hold no [<]: every flag of the script is filled with its
    argument ([MUTATIONS_ALL] when [mutations] is not given), the texts
    are kept, and the verbose script is made from this script. *)
Theorem Jumble_setup_fills_flags (kwargs : gmap string string)
    (pieces : list piece) (tests class : string) :
  Forall (well_formed Jumble_flags) pieces ->
  kwargs !! "tests" = Some tests ->
  kwargs !! "class" = Some class ->
  no_bracket (chars tests) ->
  no_bracket (chars class) ->
  let mutations := default "MUTATIONS_ALL" (kwargs !! "mutations") in
  let script :=
    string_of_list_ascii
      (concat (map (Jumble_text (chars tests) (chars class) (chars mutations))
                   pieces)) in
  Jumble_setup kwargs (string_of_list_ascii (render pieces))
  = Ok (script, Jumble_create_verbose_script script).
Proof.
  intros Hwf Htests Hclass Hnt Hnc mutations script.
  unfold Jumble_setup, subscript. rewrite Htests, Hclass. cbn [bind].
  fold mutations.
  assert (Tool_replace
            [("tests", {| original := "<REPLACE_TESTS>"; replacement := tests |});
             ("class", {| original := "<REPLACE_CLASS>"; replacement := class |});
             ("mutations",
              {| original := "<REPLACE_MUTATIONS>"; replacement := mutations |})]
            (string_of_list_ascii (render pieces)) = script) as Hscript.
  { unfold Tool_replace. cbn [map fold_left snd original replacement].
    pose proof Jumble_flags_are_flags as Hflags.
    pose proof Jumble_flags_prefix_free as Hfree.
    rewrite (py_replace_pieces Jumble_flags); try assumption;
      [|unfold Jumble_flags; set_solver].
    rewrite (py_replace_pieces Jumble_flags); try assumption;
      [|unfold Jumble_flags; set_solver
       |apply fill_well_formed; assumption].
    rewrite (py_replace_pieces Jumble_flags); try assumption;
      [|unfold Jumble_flags; set_solver
       |do 2 (apply fill_well_formed; try assumption)].
    subst script. f_equal. unfold render. rewrite !map_map. f_equal.
    apply map_ext_in. intros p Hp.
    apply list_elem_of_In in Hp.
    pose proof (proj1 (Forall_forall _ _) Hwf p Hp) as Hwfp.
    destruct p as [s|token]; [reflexivity|]. cbn [well_formed] in Hwfp.
    unfold Jumble_flags in Hwfp. cbn [fill Jumble_text].
    member_cases Hwfp; reflexivity. }
  rewrite Hscript. reflexivity.
Qed.

Ltac no_bracket_in :=
  let H := fresh in
  intros H;
  repeat (apply elem_of_cons in H as [H|H]; [discriminate H|]);
  inversion H.

Lemma Jumble_setup_fills_flags_witness :
  let script :=
    string_of_list_ascii
      (concat (map (Jumble_text (chars "org.FooTest org.BarTest")
                      (chars "org.Foo") (chars "MUTATIONS_ALL"))
                   jumble_template)) in
  Jumble_setup jumble_kwargs (string_of_list_ascii (render jumble_template))
  = Ok (script, Jumble_create_verbose_script script).
Proof.
  apply (Jumble_setup_fills_flags jumble_kwargs jumble_template
           "org.FooTest org.BarTest" "org.Foo").
  - repeat (constructor; [first [no_bracket_in | cbn; set_solver]|]).
    constructor.
  - reflexivity.
  - reflexivity.
  - no_bracket_in.
  - no_bracket_in.
Defined.

(** X3. [Pit.setup] on a template whose texts hold no [<] and whose flags
    are the two of Pit, with an argument [tests] that holds no [<]: every
    flag of the script is filled with its argument and the texts are
    kept. *)
Theorem Pit_setup_fills_flags (kwargs : gmap string string)
    (pieces : list piece) (tests class : string) :
  Forall (well_formed Pit_flags) pieces ->
  kwargs !! "tests" = Some tests ->
  kwargs !! "class" = Some class ->
  no_bracket (chars tests) ->
  Pit_setup kwargs (string_of_list_ascii (render pieces))
  = Ok (string_of_list_ascii
          (concat (map (Pit_text (chars tests) (chars class)) pieces))).
Proof.
  intros Hwf Htests Hclass Hnt.
  unfold Pit_setup, subscript. rewrite Htests, Hclass. cbn [bind]. f_equal.
  unfold Tool_replace. cbn [map fold_left snd original replacement].
  pose proof Pit_flags_are_flags as Hflags.
  pose proof Pit_flags_prefix_free as Hfree.
  rewrite (py_replace_pieces Pit_flags); try assumption;
    [|unfold Pit_flags; set_solver].
  rewrite (py_replace_pieces Pit_flags); try assumption;
    [|unfold Pit_flags; set_solver|apply fill_well_formed; assumption].
  f_equal. unfold render. rewrite !map_map. f_equal.
  apply map_ext_in. intros p Hp. apply list_elem_of_In in Hp.
  pose proof (proj1 (Forall_forall _ _) Hwf p Hp) as Hwfp.
  destruct p as [s|token]; [reflexivity|]. cbn [well_formed] in Hwfp.
  unfold Pit_flags in Hwfp. cbn [fill Pit_text].
  member_cases Hwfp; reflexivity.
Qed.

Lemma Pit_setup_fills_flags_witness :
  Pit_setup pit_kwargs (string_of_list_ascii (render pit_template))
  = Ok (string_of_list_ascii
          (concat (map (Pit_text (chars "*Test*") (chars "org.Foo"))
                       pit_template))).
Proof.
  apply (Pit_setup_fills_flags pit_kwargs pit_template "*Test*" "org.Foo").
  - repeat (constructor; [first [no_bracket_in | cbn; set_solver]|]).
    constructor.
  - reflexivity.
  - reflexivity.
  - no_bracket_in.
Defined.

(** The script of the witness, spelled out. *)
Lemma Pit_setup_example :
  Pit_setup pit_kwargs "--targetClasses <CLASS_REGEXP> --targetTests <TEST_REGEXP>"
  = Ok "--targetClasses org.Foo --targetTests *Test*".
Proof. vm_compute. reflexivity. Qed.

(** Without an argument the methods raise [KeyError]. *)
Lemma setup_missing_tests (kwargs : gmap string string) (template : string) :
  kwargs !! "tests" = None ->
  Jumble_setup kwargs template = Raise (KeyError (Some "tests"))
  /\ Pit_setup kwargs template = Raise (KeyError (Some "tests")).
Proof.
  unfold Jumble_setup, Pit_setup, subscript. intros ->. split; reflexivity.
Qed.

(** ** [Project.get_tests] *)

Lemma slashes_to_dots (first : list ascii) (more : list (ascii * list ascii)) :
  plain first ->
  Forall separated more ->
  str_replace (spell first more) (chars "/") (chars ".")
  = first ++ flat_map (fun sp => "."%char :: snd sp) more.
Proof.
  intros [Hfirst _] Hmore. unfold str_replace, spell. cbn [chars list_ascii_of_string].
  rewrite replace_from_pass by exact Hfirst. f_equal.
  induction Hmore as [|[sep token] more [[Hsep|Hsep] [Htoken _]] _ IH];
    [reflexivity| |]; cbn [flat_map fst snd] in *; subst sep.
  - pose proof (replace_from_hit "/" [] ["."%char]
                  (token ++ flat_map (fun sp => fst sp :: snd sp) more))
      as Hhit.
    cbn [app] in Hhit |- *. rewrite Hhit. cbn [app].
    rewrite replace_from_pass by exact Htoken. rewrite IH. reflexivity.
  - rewrite replace_from_pass.
    + rewrite IH. reflexivity.
    + intros H. apply elem_of_cons in H as [H|H]; [discriminate H|].
      exact (Htoken H).
Qed.

(** Whether [java] starts a piece does not depend on what follows the
    piece, which is nothing or a dot. *)
Lemma starts_with_before_dot (p token rest : list ascii) :
  "."%char ∉ p ->
  rest = [] \/ (exists rest', rest = "."%char :: rest') ->
  starts_with p (token ++ rest) = starts_with p token.
Proof.
  intros Hp Hrest. revert token.
  induction p as [|a p IH]; intros token; [reflexivity|].
  assert (a <> "."%char) as Ha by (intros ->; apply Hp; left).
  assert ("."%char ∉ p) as Hp' by (intros H; apply Hp; right; exact H).
  destruct token as [|c token]; cbn [app starts_with].
  - destruct Hrest as [->|[rest' ->]]; [reflexivity|].
    cbn [starts_with]. destruct (Ascii.eqb_spec a ".") as [->|_];
      [contradiction|reflexivity].
  - rewrite (IH Hp'). reflexivity.
Qed.

Lemma dotted_pieces_start (more : list (ascii * list ascii)) :
  let rest := flat_map (fun sp => "."%char :: snd sp) more in
  rest = [] \/ (exists rest', rest = "."%char :: rest').
Proof. destruct more as [|sp more]; cbn; eauto. Qed.

Lemma java_extensions_dropped (first : list ascii)
    (more : list (ascii * list ascii)) :
  plain first ->
  Forall separated more ->
  str_replace (first ++ flat_map (fun sp => "."%char :: snd sp) more)
              (chars ".java") []
  = first ++ flat_map (fun sp => glued (snd sp)) more.
Proof.
  intros [_ Hfirst] Hmore. unfold str_replace. cbn [chars list_ascii_of_string].
  rewrite replace_from_pass by exact Hfirst. f_equal.
  induction Hmore as [|[sep token] more [_ [_ Htoken]] _ IH]; [reflexivity|].
  cbn [flat_map fst snd] in *.
  set (rest := flat_map (fun sp => "."%char :: snd sp) more) in *.
  set (old := ["j"; "a"; "v"; "a"]%char).
  cbn [app replace_from starts_with]. rewrite Ascii.eqb_refl. cbn [andb].
  assert (starts_with old (token ++ rest) = starts_with old token) as Hsame.
  { apply starts_with_before_dot; [|apply dotted_pieces_start].
    subst old. intros H.
    repeat (apply elem_of_cons in H as [H|H]; [discriminate H|]).
    inversion H. }
  rewrite Hsame. unfold glued at 1. change (chars "java") with old.
  destruct (starts_with old token) eqn:Hs.
  - apply starts_with_true in Hs. cbn [app length Nat.sub].
    rewrite Hs at 1. subst old. cbn [length app Nat.sub replace_from].
    rewrite replace_from_pass; [rewrite IH; reflexivity|].
    intros H. apply Htoken. rewrite <- (take_drop 4 token).
    apply elem_of_app. right. exact H.
  - rewrite replace_from_pass by exact Htoken. subst old.
    rewrite IH. reflexivity.
Qed.

Lemma java_name_spelled (first : list ascii)
    (more : list (ascii * list ascii)) :
  plain first ->
  Forall separated more ->
  java_name (string_of_list_ascii (spell first more))
  = string_of_list_ascii (first ++ flat_map (fun sp => glued (snd sp)) more).
Proof.
  intros Hfirst Hmore. unfold java_name, py_replace.
  rewrite !chars_string, slashes_to_dots by assumption.
  change (chars "") with (@nil ascii).
  rewrite java_extensions_dropped by assumption. reflexivity.
Qed.

(** X4. The name [Project.get_tests] gives a path found by [rglob]: for a
    path made of pieces without [/] and [.], each further piece after a
    [/] or a [.], the name is the first piece followed by the further
    pieces, each after a [.] -- except that a further piece that starts
    with [java] loses these four characters and its dot.  So the
    extension [.java] is dropped, and so is the start of a directory
    named [java] or [javax]. *)
Theorem java_name_of_pieces (first : list ascii)
    (more : list (ascii * list ascii)) :
  plain first ->
  Forall separated more ->
  java_name (string_of_list_ascii (spell first more))
  = string_of_list_ascii (first ++ flat_map (fun sp => glued (snd sp)) more).
Proof. apply java_name_spelled. Qed.

Lemma java_name_of_pieces_witness :
  java_name (string_of_list_ascii (spell (chars "org") java_util_test))
  = string_of_list_ascii
      (chars "org" ++ flat_map (fun sp => glued (snd sp)) java_util_test).
Proof.
  apply (java_name_of_pieces (chars "org") java_util_test).
  - split; no_bracket_in.
  - repeat (constructor;
            [split; [first [left; reflexivity|right; reflexivity]
                    |split; no_bracket_in]|]).
    constructor.
Defined.

(** The witness spelled out: the directory [java] is lost. *)
Lemma java_name_example :
  get_tests ["org/java/util/FooTest.java"; "org/apache/FooTest.java"]
  = ["org.util.FooTest"; "org.apache.FooTest"].
Proof. vm_compute. reflexivity. Qed.

(** X5. For a path [dir/.../Name.java] whose directories and name hold
    no dot, none of them but the first starting with [java], the name
    [Project.get_tests] gives is [dir. ... .Name]. *)
Theorem java_name_of_plain_path (first : list ascii)
    (others : list (list ascii)) :
  plain first ->
  Forall plain others ->
  Forall (fun piece => starts_with (chars "java") piece = false) others ->
  java_name
    (string_of_list_ascii
       (join_with (chars "/") (first :: others) ++ chars ".java"))
  = string_of_list_ascii (join_with (chars ".") (first :: others)).
Proof.
  intros Hfirst Hplain Hjava.
  assert (forall (sep : ascii) (l : list (list ascii)) (f : list ascii),
            join_with [sep] (f :: l)
            = f ++ flat_map (fun piece => sep :: piece) l) as Hjoin.
  { intros sep l.
    induction l as [|piece l IH]; intros f.
    - cbn. rewrite app_nil_r. reflexivity.
    - change (join_with [sep] (f :: piece :: l))
        with (f ++ [sep] ++ join_with [sep] (piece :: l)).
      rewrite IH. reflexivity. }
  change (chars "/") with ["/"%char]. change (chars ".") with ["."%char].
  rewrite !Hjoin.
  pose proof (java_name_spelled first
                (map (fun piece => ("/"%char, piece)) others
                 ++ [("."%char, chars "java")]) Hfirst) as H.
  unfold spell in H. rewrite !flat_map_app in H.
  rewrite !flat_map_concat_map, !map_map in H. cbn [fst snd map concat] in H.
  rewrite <- !flat_map_concat_map in H.
  rewrite app_nil_r in H. change (glued (chars "java") ++ []) with (@nil ascii) in H.
  rewrite app_nil_r in H. rewrite <- app_assoc.
  change ("."%char :: chars "java") with (chars ".java") in H.
  rewrite H.
  - f_equal. f_equal. clear H.
    induction Hjava as [|piece l Hpiece Hl IH]; [reflexivity|].
    apply Forall_cons in Hplain as [_ Hplain]. cbn [flat_map].
    unfold glued at 1. rewrite Hpiece. rewrite (IH Hplain). reflexivity.
  - apply Forall_app. split.
    + apply Forall_fmap. eapply Forall_impl; [exact Hplain|].
      intros piece Hp. split; [left; reflexivity|exact Hp].
    + constructor; [|constructor]. split; [right; reflexivity|].
      split; no_bracket_in.
Qed.

Lemma java_name_of_plain_path_witness :
  java_name
    (string_of_list_ascii
       (join_with (chars "/") (chars "org" :: [chars "apache"; chars "FooTest"])
        ++ chars ".java"))
  = string_of_list_ascii
      (join_with (chars ".") (chars "org" :: [chars "apache"; chars "FooTest"])).
Proof.
  apply (java_name_of_plain_path (chars "org")
           [chars "apache"; chars "FooTest"]).
  - split; no_bracket_in.
  - repeat (constructor; [split; no_bracket_in|]). constructor.
  - repeat (constructor; [reflexivity|]). constructor.
Defined.

(** ** The commands of [utility] *)

Section CommandProperties.
Variable sys : os.

Lemma defects4j_cmd_cases (cmd : string) (args : list string)
    (kwargs : gmap string bool) (w : world) :
  (cmd = "" \/ cmd ∈ possible_cmds ->
   (run_error sys "defects4j" (if String.eqb cmd "" then args else cmd :: args)
      w = None ->
    defects4j_cmd sys cmd args kwargs w
    = (Returns,
       {| cwd := cwd w;
          spawned :=
            spawned w
            ++ [defects4j_process
                  (if String.eqb cmd "" then args else cmd :: args)
                  kwargs (cwd w)] |}))
   /\ (forall e : os_error,
       run_error sys "defects4j"
         (if String.eqb cmd "" then args else cmd :: args) w = Some e ->
       defects4j_cmd sys cmd args kwargs w = (RaisesOS e, w)))
  /\ (cmd <> "" -> cmd ∉ possible_cmds ->
      defects4j_cmd sys cmd args kwargs w
      = (Raises (AssertionError "Invalid command provided for defects4j!"),
         w)).
Proof.
  unfold defects4j_cmd, subprocess_run, defects4j_process. split.
  - intros Hcmd. destruct (String.eqb_spec cmd "") as [->|Hne]; cbn [negb app].
    + split; [intros ->|intros e ->]; reflexivity.
    + destruct Hcmd as [Hcmd|Hcmd]; [contradiction|].
      rewrite bool_decide_eq_true_2 by exact Hcmd. cbn [app].
      split; [intros ->|intros e ->]; reflexivity.
  - intros Hne Hnot. destruct (String.eqb_spec cmd "") as [->|_];
      [contradiction|]. cbn [negb].
    rewrite bool_decide_eq_false_2 by exact Hnot. reflexivity.
Qed.

(** X6. [defects4j_cmd] starts a process only for an empty sub-command
    or one of the twelve of [possible_cmds]: the process is [defects4j],
    the sub-command if any, then the arguments, in the current directory,
    and when the operating system cannot start it (no [defects4j] in the
    path), its error is raised and nothing is started.  For any other
    sub-command it raises [AssertionError] and starts nothing, whatever
    the operating system would say. *)
Theorem defects4j_cmd_allowed (cmd : string) (args : list string)
    (kwargs : gmap string bool) (w : world) :
  (cmd = "" \/ cmd ∈ possible_cmds ->
   (run_error sys "defects4j" (if String.eqb cmd "" then args else cmd :: args)
      w = None ->
    exists p,
      defects4j_cmd sys cmd args kwargs w
      = (Returns, {| cwd := cwd w; spawned := spawned w ++ [p] |})
      /\ argv p
         = "defects4j" :: (if String.eqb cmd "" then args else cmd :: args)
      /\ workdir p = cwd w)
   /\ (forall e : os_error,
       run_error sys "defects4j"
         (if String.eqb cmd "" then args else cmd :: args) w = Some e ->
       defects4j_cmd sys cmd args kwargs w = (RaisesOS e, w)))
  /\ (cmd <> "" -> cmd ∉ possible_cmds ->
      defects4j_cmd sys cmd args kwargs w
      = (Raises (AssertionError "Invalid command provided for defects4j!"),
         w)).
Proof.
  destruct (defects4j_cmd_cases cmd args kwargs w) as [Hok Hbad].
  split; [|exact Hbad].
  intros Hcmd. destruct (Hok Hcmd) as [Hrun Hfail]. split; [|exact Hfail].
  intros Hsys. eexists. split; [apply Hrun, Hsys|]. split; reflexivity.
Qed.

Section DirectoryProperties.
Variable resolve : string -> string -> string.

(** Where the command stands once it has entered the directory. *)
Lemma entered (old_path new_path : string) (w : world) :
  cwd w = old_path ->
  (old_path <> new_path -> chdir_error sys new_path w = None) ->
  (if negb (String.eqb old_path new_path) then chdir sys new_path else skip) w
  = (Returns, {| cwd := new_path; spawned := spawned w |}).
Proof.
  intros Hcwd Hdir. destruct (String.eqb_spec old_path new_path) as [E|N];
    cbn [negb].
  - unfold skip. rewrite <- E, <- Hcwd. destruct w; reflexivity.
  - unfold chdir. rewrite (Hdir N). reflexivity.
Qed.

Lemma defects4j_cmd_dirpath_cases (project_dir command : string)
    (args : list string) (kwargs : gmap string bool) (w : world) :
  command <> "" ->
  getcwd_error sys w = None ->
  (cwd w <> resolve (cwd w) project_dir ->
   chdir_error sys (resolve (cwd w) project_dir) w = None) ->
  (command ∈ possible_cmds ->
   (run_error sys "defects4j" (command :: args)
      {| cwd := resolve (cwd w) project_dir; spawned := spawned w |} = None ->
    (cwd w <> resolve (cwd w) project_dir ->
     chdir_error sys (cwd w)
       {| cwd := resolve (cwd w) project_dir;
          spawned :=
            spawned w
            ++ [defects4j_process (command :: args) kwargs
                  (resolve (cwd w) project_dir)] |} = None) ->
    defects4j_cmd_dirpath sys resolve project_dir command args kwargs w
    = (Returns,
       {| cwd := cwd w;
          spawned :=
            spawned w
            ++ [defects4j_process (command :: args) kwargs
                  (resolve (cwd w) project_dir)] |}))
   /\ (forall e : os_error,
       run_error sys "defects4j" (command :: args)
         {| cwd := resolve (cwd w) project_dir; spawned := spawned w |}
       = Some e ->
       defects4j_cmd_dirpath sys resolve project_dir command args kwargs w
       = (RaisesOS e,
          {| cwd := resolve (cwd w) project_dir; spawned := spawned w |})))
  /\ (command ∉ possible_cmds ->
      defects4j_cmd_dirpath sys resolve project_dir command args kwargs w
      = (Raises (AssertionError "Invalid command provided for defects4j!"),
         {| cwd := resolve (cwd w) project_dir; spawned := spawned w |})).
Proof.
  intros Hne Hcwd Hdir.
  set (new_path := resolve (cwd w) project_dir) in *.
  set (there := {| cwd := new_path; spawned := spawned w |}).
  assert (defects4j_cmd_dirpath sys resolve project_dir command args kwargs w
          = and_then (defects4j_cmd sys command args kwargs)
              (if negb (String.eqb (cwd w) new_path) then chdir sys (cwd w)
               else skip) there) as Hstep.
  { unfold defects4j_cmd_dirpath. rewrite Hcwd. cbv zeta. fold new_path.
    unfold and_then at 1.
    rewrite (entered (cwd w) new_path w eq_refl Hdir). reflexivity. }
  rewrite !Hstep. clear Hstep.
  destruct (defects4j_cmd_cases command args kwargs there) as [Hok Hbad].
  apply String.eqb_neq in Hne as Hneb. rewrite Hneb in Hok.
  unfold and_then. split.
  - intros Hin. destruct (Hok (or_intror Hin)) as [Hrun Hfail]. split.
    + intros Hsys Hback. rewrite (Hrun Hsys). cbn [cwd spawned there].
      destruct (String.eqb_spec (cwd w) new_path) as [E|N]; cbn [negb].
      * unfold skip. rewrite E. reflexivity.
      * unfold chdir. rewrite (Hback N). reflexivity.
    + intros e Hsys. rewrite (Hfail e Hsys). reflexivity.
  - intros Hnot. rewrite (Hbad Hne Hnot). reflexivity.
Qed.

(** X7. [defects4j_cmd_dirpath], once it has entered the resolved
    directory of the project.  With a sub-command of [possible_cmds],
    when the operating system starts [defects4j] and lets the command
    go back, exactly one process is started, [defects4j] with the
    sub-command and the arguments, in the directory of the project, and
    the working directory is left as it was found; when [defects4j]
    cannot be started, the error is raised and the working directory is
    left in the directory of the project.  With another sub-command (not
    empty) it raises [AssertionError], starts nothing, and leaves the
    working directory in the directory of the project as well. *)
Theorem defects4j_cmd_dirpath_directory (project_dir command : string)
    (args : list string) (kwargs : gmap string bool) (w : world) :
  command <> "" ->
  getcwd_error sys w = None ->
  (cwd w <> resolve (cwd w) project_dir ->
   chdir_error sys (resolve (cwd w) project_dir) w = None) ->
  (command ∈ possible_cmds ->
   (run_error sys "defects4j" (command :: args)
      {| cwd := resolve (cwd w) project_dir; spawned := spawned w |} = None ->
    (cwd w <> resolve (cwd w) project_dir ->
     chdir_error sys (cwd w)
       {| cwd := resolve (cwd w) project_dir;
          spawned :=
            spawned w
            ++ [defects4j_process (command :: args) kwargs
                  (resolve (cwd w) project_dir)] |} = None) ->
    exists p,
      defects4j_cmd_dirpath sys resolve project_dir command args kwargs w
      = (Returns, {| cwd := cwd w; spawned := spawned w ++ [p] |})
      /\ argv p = "defects4j" :: command :: args
      /\ workdir p = resolve (cwd w) project_dir)
   /\ (forall e : os_error,
       run_error sys "defects4j" (command :: args)
         {| cwd := resolve (cwd w) project_dir; spawned := spawned w |}
       = Some e ->
       defects4j_cmd_dirpath sys resolve project_dir command args kwargs w
       = (RaisesOS e,
          {| cwd := resolve (cwd w) project_dir; spawned := spawned w |})))
  /\ (command ∉ possible_cmds ->
      defects4j_cmd_dirpath sys resolve project_dir command args kwargs w
      = (Raises (AssertionError "Invalid command provided for defects4j!"),
         {| cwd := resolve (cwd w) project_dir; spawned := spawned w |})).
Proof.
  intros Hne Hcwd Hdir.
  destruct (defects4j_cmd_dirpath_cases project_dir command args kwargs w
              Hne Hcwd Hdir) as [Hok Hbad].
  split; [|exact Hbad].
  intros Hin. destruct (Hok Hin) as [Hrun Hfail]. split; [|exact Hfail].
  intros Hsys Hback. eexists. split; [apply Hrun; assumption|].
  split; reflexivity.
Qed.


End DirectoryProperties.

End CommandProperties.

Lemma defects4j_cmd_allowed_witness :
  (exists p,
     defects4j_cmd workstation "mutation" [] ∅ home_world
     = (Returns, {| cwd := "/home/user"; spawned := [p] |})
     /\ argv p = ["defects4j"; "mutation"]
     /\ workdir p = "/home/user")
  /\ defects4j_cmd (machine ["/home/user"] []) "mutation" [] ∅ home_world
     = (RaisesOS FileNotFoundError, home_world)
  /\ defects4j_cmd workstation "rm" ["-rf"] ∅ home_world
     = (Raises (AssertionError "Invalid command provided for defects4j!"),
        home_world).
Proof.
  assert ("mutation" ∈ possible_cmds) as Hin
    by (unfold possible_cmds; set_solver).
  split; [|split].
  - apply (proj1 (proj1 (defects4j_cmd_allowed workstation "mutation" [] ∅
                           home_world) (or_intror Hin))).
    reflexivity.
  - apply (proj2 (proj1 (defects4j_cmd_allowed (machine ["/home/user"] [])
                           "mutation" [] ∅ home_world) (or_intror Hin))).
    reflexivity.
  - apply (proj2 (defects4j_cmd_allowed workstation "rm" ["-rf"] ∅
                    home_world)).
    + discriminate.
    + unfold possible_cmds. intros H.
      repeat (apply elem_of_cons in H as [H|H]; [discriminate H|]).
      inversion H.
Defined.

Lemma defects4j_cmd_dirpath_directory_witness :
  (exists p,
     defects4j_cmd_dirpath workstation resolve_absolute "/checkout/lang"
       "mutation" [] ∅ home_world
     = (Returns, {| cwd := "/home/user"; spawned := [p] |})
     /\ argv p = ["defects4j"; "mutation"]
     /\ workdir p = "/checkout/lang")
  /\ defects4j_cmd_dirpath workstation resolve_absolute "/checkout/lang"
       "remove" [] ∅ home_world
     = (Raises (AssertionError "Invalid command provided for defects4j!"),
        {| cwd := "/checkout/lang"; spawned := [] |}).
Proof.
  assert ("mutation" ∈ possible_cmds) as Hin
    by (unfold possible_cmds; set_solver).
  split.
  - apply (proj1 (proj1 (defects4j_cmd_dirpath_directory workstation
                           resolve_absolute "/checkout/lang" "mutation" [] ∅
                           home_world ltac:(discriminate) eq_refl
                           (fun _ => eq_refl)) Hin)).
    + reflexivity.
    + intros _. reflexivity.
  - apply (proj2 (defects4j_cmd_dirpath_directory workstation
                    resolve_absolute "/checkout/lang" "remove" [] ∅
                    home_world ltac:(discriminate) eq_refl
                    (fun _ => eq_refl))).
    unfold possible_cmds. intros H.
    repeat (apply elem_of_cons in H as [H|H]; [discriminate H|]).
    inversion H.
Defined.


(** ** Repetitions of the matcher *)

Lemma run_length_le (cls : ascii -> bool) (s : list ascii) :
  (run_length cls s <= length s)%nat.
Proof.
  induction s as [|c s IH]; cbn; [lia|]. destruct (cls c); cbn; lia.
Qed.

Lemma run_length_take (cls : ascii -> bool) (s : list ascii) (n : nat) :
  (n <= run_length cls s)%nat ->
  Forall (fun c => cls c = true) (take n s).
Proof.
  revert n. induction s as [|c s IH]; intros n Hn.
  - rewrite take_nil. constructor.
  - destruct n as [|n]; [constructor|]. cbn in *.
    destruct (cls c) eqn:Hc; [|lia].
    constructor; [exact Hc|]. apply IH. lia.
Qed.

Lemma run_length_drop (cls : ascii -> bool) (s : list ascii) :
  match drop (run_length cls s) s with
  | [] => True
  | c :: _ => cls c = false
  end.
Proof.
  induction s as [|c s IH]; cbn; [exact I|].
  destruct (cls c) eqn:Hc; [exact IH|exact Hc].
Qed.

Lemma run_length_app (cls : ascii -> bool) (run rest : list ascii) :
  Forall (fun c => cls c = true) run ->
  match rest with
  | [] => True
  | c :: _ => cls c = false
  end ->
  run_length cls (run ++ rest) = length run.
Proof.
  intros Hrun Hrest. induction Hrun as [|c run Hc _ IH].
  - destruct rest as [|c rest]; [reflexivity|]. cbn. rewrite Hrest. reflexivity.
  - cbn. rewrite Hc, IH. reflexivity.
Qed.

(** A repetition in the last place of a pattern takes the whole run. *)
Lemma match_here_last_Plus (cls : ascii -> bool) (s : list ascii) :
  match_here [Plus cls] s
  = match run_length cls s with
    | O => None
    | S extra => Some ([take (S extra) s], drop (S extra) s)
    end.
Proof.
  cbn [match_here]. destruct (run_length cls s) as [|extra]; [reflexivity|].
  apply (backtrack_first _ 1 extra s (drop (1 + extra) s) []). reflexivity.
Qed.

(** ** [Project] *)

Module CheckoutProperties.
Import Checkout.

Lemma string_of_chars (s : string) : string_of_list_ascii (chars s) = s.
Proof. apply string_of_list_ascii_of_string. Qed.

Lemma string_is_chars (l : list ascii) (s : string) :
  string_of_list_ascii l = s <-> l = chars s.
Proof.
  split; intros H.
  - rewrite <- H. symmetry. apply chars_string.
  - rewrite H. apply string_of_chars.
Qed.

Lemma match_here_vid (s : list ascii) :
  match_here vid_pattern s
  = match run_length is_digit s with
    | O => None
    | S extra => backtrack (match_here [Plus is_word]) 1 extra s
    end.
Proof. reflexivity. Qed.

Lemma vid_groups (s rest : list ascii) (groups : list (list ascii)) :
  match_here vid_pattern s = Some (groups, rest) ->
  exists bug status,
    groups = [bug; status] /\ s = bug ++ status ++ rest
    /\ bug <> [] /\ Forall (fun c => is_digit c = true) bug
    /\ status <> [] /\ Forall (fun c => is_word c = true) status
    /\ match rest with
       | [] => True
       | c :: _ => is_word c = false
       end.
Proof.
  rewrite match_here_vid.
  destruct (run_length is_digit s) as [|extra] eqn:Hrun; [discriminate|].
  intros H. apply backtrack_Some in H as (n & segs & Hn & -> & Hword).
  rewrite match_here_last_Plus in Hword.
  destruct (run_length is_word (drop n s)) as [|extra'] eqn:Hrun';
    [discriminate|].
  injection Hword as <- <-.
  exists (take n s), (take (S extra') (drop n s)).
  split; [reflexivity|]. split; [rewrite !take_drop; reflexivity|].
  pose proof (run_length_le is_word (drop n s)) as Hle'.
  pose proof (run_length_le is_digit s) as Hle.
  rewrite Hrun' in Hle'. rewrite Hrun in Hle.
  split; [|split; [|split; [|split]]].
  - intros E. apply (f_equal length) in E. rewrite length_take in E.
    cbn [length] in E. lia.
  - apply run_length_take. lia.
  - intros E. apply (f_equal length) in E. rewrite length_take in E.
    cbn [length] in E. lia.
  - apply run_length_take. lia.
  - rewrite <- Hrun'. apply run_length_drop.
Qed.

(** X9. The value of [vid] that [Project.__init__] accepts: the bug is
    [bug] and its status [status] exactly when the value is the digits
    [bug], then the letter of the status ([b] or [f]), then nothing or a
    character that is no word character. *)
Theorem bug_of_vid_accepts (vid bug : string) (status : BugStatus) :
  bug_of_vid vid = Ok (bug, status)
  <-> (exists rest,
         chars vid = chars bug ++ value status :: rest
         /\ chars bug <> []
         /\ Forall (fun c => is_digit c = true) (chars bug)
         /\ match rest with
            | [] => True
            | c :: _ => is_word c = false
            end).
Proof.
  unfold bug_of_vid. split.
  - destruct (match_here vid_pattern (chars vid)) as [[groups rest]|] eqn:Hm;
      [|discriminate].
    apply vid_groups in Hm
      as (b & s & -> & Hvid & Hb & Hdigits & _ & _ & Hrest).
    destruct (String.eqb_spec (string_of_list_ascii s) "b") as [Es|_];
      [|destruct (String.eqb_spec (string_of_list_ascii s) "f") as [Es|_];
        [|discriminate]];
      intros [= <- <-]; apply string_is_chars in Es; subst s;
      exists rest; rewrite chars_string; auto.
  - intros (rest & Hvid & Hbug & Hdigits & Hrest). rewrite Hvid.
    assert (run_length is_digit (chars bug ++ value status :: rest)
            = length (chars bug)) as Hrun.
    { apply run_length_app; [exact Hdigits|]. destruct status; reflexivity. }
    rewrite match_here_vid, Hrun.
    destruct (chars bug) as [|d digits] eqn:Hchars; [contradiction|].
    cbn [length].
    rewrite (backtrack_first _ 1 (length digits) _ rest [[value status]]).
    + rewrite take_app_length'
        by reflexivity.
      rewrite <- Hchars, string_of_chars.
      destruct status; reflexivity.
    + rewrite drop_app_length' by reflexivity.
      rewrite match_here_last_Plus.
      assert (run_length is_word (value status :: rest) = 1%nat) as ->.
      { change (value status :: rest) with ([value status] ++ rest).
        apply run_length_app; [|exact Hrest].
        constructor; [destruct status; reflexivity|constructor]. }
      reflexivity.
Qed.

Lemma bug_of_vid_accepts_witness : bug_of_vid "12b" = Ok ("12", BUGGY).
Proof.
  apply (proj2 (bug_of_vid_accepts "12b" "12" BUGGY)).
  exists []. split; [reflexivity|]. split; [discriminate|].
  split; [|exact I]. repeat (constructor; [reflexivity|]). constructor.
Defined.

(** Splitting at a character and joining again. *)
Lemma split_char_nonempty (sep : ascii) (s : list ascii) :
  split_char sep s <> [].
Proof.
  destruct s as [|c s]; cbn; [discriminate|].
  destruct (Ascii.eqb c sep); [discriminate|].
  destruct (split_char sep s); discriminate.
Qed.

Lemma split_char_app (sep : ascii) (a b : list ascii) :
  split_char sep (a ++ sep :: b) = split_char sep a ++ split_char sep b.
Proof.
  induction a as [|c a IH]; cbn [app split_char].
  - rewrite Ascii.eqb_refl. reflexivity.
  - rewrite IH. destruct (Ascii.eqb c sep); [reflexivity|].
    pose proof (split_char_nonempty sep a) as Hne.
    destruct (split_char sep a) as [|piece pieces]; [contradiction|].
    reflexivity.
Qed.

Lemma split_char_absent (sep : ascii) (s : list ascii) :
  sep ∉ s -> split_char sep s = [s].
Proof.
  induction s as [|c s IH]; intros Hnot; [reflexivity|]. cbn.
  destruct (Ascii.eqb_spec c sep) as [->|_].
  - exfalso. apply Hnot. left.
  - rewrite IH; [reflexivity|]. intros H. apply Hnot. right. exact H.
Qed.

Lemma join_split_char (sep : ascii) (s : list ascii) :
  join_with [sep] (split_char sep s) = s.
Proof.
  induction s as [|c s IH]; [reflexivity|]. cbn [split_char].
  pose proof (split_char_nonempty sep s) as Hne.
  destruct (Ascii.eqb_spec c sep) as [->|_].
  - destruct (split_char sep s) as [|piece pieces]; [contradiction|].
    change (join_with [sep] ([] :: piece :: pieces))
      with ([] ++ [sep] ++ join_with [sep] (piece :: pieces)).
    rewrite IH. reflexivity.
  - destruct (split_char sep s) as [|piece pieces]; [contradiction|].
    rewrite <- IH. destruct pieces; reflexivity.
Qed.

Lemma but_last_snoc {A : Type} (l : list A) (x : A) : but_last (l ++ [x]) = l.
Proof.
  unfold but_last. rewrite length_app. cbn [length].
  replace (length l + 1 - 1)%nat with (length l) by lia.
  apply take_app_length.
Qed.

(** The package of a class: what stands before its last dot. *)
Lemma package_of_class (pkg simple : list ascii) :
  "."%char ∉ simple ->
  join_with ["."%char] (but_last (split_char "." (pkg ++ "."%char :: simple)))
  = pkg.
Proof.
  intros Hsimple.
  rewrite split_char_app, (split_char_absent _ simple Hsimple), but_last_snoc.
  apply join_split_char.
Qed.

Lemma read_config_pairs (text : string) :
  read_config text "=" = Ok (dict_of_pairs (config_pairs text)).
Proof. apply read_config_loop_pairs. Qed.

Section PathProperties.
Variable path : Type.
Variable joinpath : path -> string -> path.
Variable FILES : path.

(** What a project that [__init__] returns is made of. *)
Lemma Project_init_Ok (fp : path) (config_text properties_text : string)
    (p : Project path) :
  Project_init path joinpath fp config_text properties_text = Ok p ->
  exists vid tests,
    let config := dict_of_pairs (config_pairs config_text) in
    let properties := dict_of_pairs (config_pairs properties_text) in
    config !! "pid" = Some (name path p)
    /\ name path p ∈ compatible_projects
    /\ config !! "vid" = Some vid
    /\ bug_of_vid vid = Ok (bug path p, bug_status path p)
    /\ properties !! "d4j.classes.relevant" = Some (relevant_class path p)
    /\ properties !! "d4j.dir.src.tests" = Some tests
    /\ p = {| filepath := fp;
              name := name path p;
              bug := bug path p;
              bug_status := bug_status path p;
              relevant_class := relevant_class path p;
              test_dir := joinpath fp tests;
              package :=
                string_of_list_ascii
                  (join_with (chars ".")
                     (but_last
                        (split_char "." (chars (relevant_class path p)))));
              full_test_dir :=
                joinpath (joinpath fp tests)
                  (py_replace
                     (string_of_list_ascii
                        (join_with (chars ".")
                           (but_last
                              (split_char "."
                                 (chars (relevant_class path p))))))
                     "." "/");
              test_class := relevant_class path p +:+ "Test" |}.
Proof.
  unfold Project_init. rewrite !read_config_pairs. cbn [bind].
  unfold subscript.
  destruct (dict_of_pairs (config_pairs config_text) !! "pid")
    as [pid|] eqn:Hpid; [|discriminate]. cbn [bind].
  case_bool_decide as Hcompat; [|discriminate]. cbn [negb].
  destruct (dict_of_pairs (config_pairs config_text) !! "vid")
    as [vid|] eqn:Hvid; [|discriminate]. cbn [bind].
  destruct (bug_of_vid vid) as [[b st]|] eqn:Hbug; [|discriminate].
  cbn [bind fst snd].
  destruct (dict_of_pairs (config_pairs properties_text)
              !! "d4j.classes.relevant") as [cls|] eqn:Hcls; [|discriminate].
  cbn [bind].
  destruct (dict_of_pairs (config_pairs properties_text)
              !! "d4j.dir.src.tests") as [tests|] eqn:Htests; [|discriminate].
  cbn [bind]. intros [= <-]. cbn. exists vid, tests. auto 10.
Qed.

(** X10. In every project that [Project.__init__] returns, the package
    is what stands before the last dot of the relevant class (nothing
    when the class has no dot), the test class is the relevant class
    followed by [Test], and the directory of the tests of the package is
    the package, its dots turned into [/], under the directory of the
    tests. *)
Theorem Project_init_package (fp : path) (config_text properties_text : string)
    (p : Project path) :
  Project_init path joinpath fp config_text properties_text = Ok p ->
  (forall pkg simple,
     chars (relevant_class path p) = pkg ++ "."%char :: simple ->
     "."%char ∉ simple ->
     package path p = string_of_list_ascii pkg)
  /\ ("."%char ∉ chars (relevant_class path p) -> package path p = "")
  /\ test_class path p = relevant_class path p +:+ "Test"
  /\ full_test_dir path p
     = joinpath (test_dir path p) (py_replace (package path p) "." "/").
Proof.
  intros H. apply Project_init_Ok in H
    as (vid & tests & _ & _ & _ & _ & _ & _ & Hp).
  rewrite Hp. cbn [package relevant_class test_class full_test_dir test_dir].
  split; [|split; [|split; reflexivity]].
  - intros pkg simple Hclass Hsimple. rewrite Hclass.
    change (chars ".") with ["."%char]. rewrite package_of_class by assumption.
    reflexivity.
  - intros Hnot. rewrite (split_char_absent _ _ Hnot). reflexivity.
Qed.

(** X11. For every project that [Project.__init__] returns, the name is
    one of Cli, Gson and Lang, [project_tests_root] finds its directory
    (no [KeyError]), and this is the directory [test_classes] reads
    from: the name in lower case followed by [_tests], under [FILES]. *)
Theorem Project_init_tests_root (fp : path)
    (config_text properties_text : string) (p : Project path) :
  Project_init path joinpath fp config_text properties_text = Ok p ->
  is_compatible_project path p = true
  /\ project_tests_root path joinpath FILES p
     = Ok (joinpath FILES (test_classes_fname path p)).
Proof.
  intros H. apply Project_init_Ok in H
    as (vid & tests & _ & Hcompat & _).
  unfold is_compatible_project, project_tests_root, test_classes_fname.
  rewrite bool_decide_eq_true_2 by exact Hcompat. split; [reflexivity|].
  unfold compatible_projects in Hcompat.
  repeat (apply elem_of_cons in Hcompat as [->|Hcompat]; [reflexivity|]).
  inversion Hcompat.
Qed.

End PathProperties.

Lemma lang_project_init :
  Project_init string join_strings "/checkout" lang_config lang_properties
  = Ok lang_project.
Proof. vm_compute. reflexivity. Qed.

Lemma Project_init_package_witness :
  (forall pkg simple,
     chars (relevant_class string lang_project) = pkg ++ "."%char :: simple ->
     "."%char ∉ simple ->
     package string lang_project = string_of_list_ascii pkg)
  /\ ("."%char ∉ chars (relevant_class string lang_project) ->
      package string lang_project = "")
  /\ test_class string lang_project
     = relevant_class string lang_project +:+ "Test"
  /\ full_test_dir string lang_project
     = join_strings (test_dir string lang_project)
         (py_replace (package string lang_project) "." "/").
Proof.
  apply (Project_init_package string join_strings "/checkout" lang_config
           lang_properties lang_project).
  vm_compute. reflexivity.
Defined.

Lemma Project_init_tests_root_witness :
  is_compatible_project string lang_project = true
  /\ project_tests_root string join_strings "/files" lang_project
     = Ok (join_strings "/files" (test_classes_fname string lang_project)).
Proof.
  apply (Project_init_tests_root string join_strings "/files" "/checkout"
           lang_config lang_properties lang_project).
  vm_compute. reflexivity.
Defined.

End CheckoutProperties.

(** ** More on [read_config] *)

Lemma lstrip_in (x : ascii) (s : list ascii) : x ∈ lstrip s -> x ∈ s.
Proof.
  destruct (lstrip_suffix s) as [dropped Hs]. intros H. rewrite Hs.
  apply elem_of_app. right. exact H.
Qed.

Lemma strip_in (x : ascii) (s : list ascii) : x ∈ strip s -> x ∈ s.
Proof.
  unfold strip. intros H. rewrite elem_of_reverse in H.
  apply lstrip_in in H. rewrite elem_of_reverse in H. apply lstrip_in, H.
Qed.

Lemma lstrip_snoc (s : list ascii) (c : ascii) :
  is_space c = false -> lstrip (s ++ [c]) = lstrip s ++ [c].
Proof.
  intros Hc. induction s as [|x s IH]; cbn.
  - rewrite Hc. reflexivity.
  - destruct (is_space x); [exact IH|reflexivity].
Qed.

(** A text that starts with a character other than white space still
    starts with it once stripped. *)
Lemma strip_cons (c : ascii) (s : list ascii) :
  is_space c = false -> exists s', strip (c :: s) = c :: s'.
Proof.
  intros Hc. unfold strip. cbn [lstrip]. rewrite Hc, reverse_cons.
  rewrite lstrip_snoc by exact Hc. rewrite reverse_app. cbn. eauto.
Qed.

Lemma strip_head (s : list ascii) :
  match strip s with
  | [] => True
  | c :: _ => is_space c = false
  end.
Proof.
  pose proof (lstrip_head s) as Hhead. unfold strip.
  destruct (lstrip s) as [|c s'] eqn:Hs; [exact I|].
  rewrite reverse_cons, lstrip_snoc by exact Hhead.
  rewrite reverse_app. exact Hhead.
Qed.

Lemma before_first_kept (keep : ascii -> bool) (s : list ascii) :
  Forall (fun c => keep c = true) (before_first keep s).
Proof.
  induction s as [|c s IH]; cbn; [constructor|].
  destruct (keep c) eqn:Hc; constructor; assumption.
Qed.

Lemma dict_of_pairs_lookup (pairs : list (string * string))
    (key value : string) :
  dict_of_pairs pairs !! key = Some value -> (key, value) ∈ pairs.
Proof.
  unfold dict_of_pairs.
  assert (forall d : gmap string string,
            foldl (fun d kv => <[fst kv := snd kv]> d) d pairs !! key
            = Some value ->
            (key, value) ∈ pairs \/ d !! key = Some value) as Hgen.
  { induction pairs as [|[k v] pairs IH]; intros d; cbn [foldl]; [auto|].
    intros H. destruct (IH _ H) as [Hin|Hd].
    - left. right. exact Hin.
    - cbn [fst snd] in Hd. destruct (decide (k = key)) as [->|Hne].
      + rewrite lookup_insert_eq in Hd. injection Hd as ->. left. left.
      + rewrite lookup_insert_ne in Hd by exact Hne. auto. }
  intros H. destruct (Hgen ∅ H) as [Hin|Hempty]; [exact Hin|].
  rewrite lookup_empty in Hempty. discriminate.
Qed.

Lemma config_pair_shape (line : list ascii) (key value : string) :
  config_pair line = Some (key, value) ->
  ("="%char ∉ chars key)
  /\ strip (chars key) = chars key
  /\ strip (chars value) = chars value
  /\ (forall rest, chars key <> "#"%char :: rest).
Proof.
  unfold config_pair. pose proof (strip_head line) as Hhead.
  destruct (strip line) as [|c rest] eqn:Hline; [discriminate|].
  destruct (Ascii.eqb_spec c "#") as [->|Hc]; [discriminate|].
  destruct (from_first not_equals_sign (c :: rest)) as [|e after];
    [discriminate|].
  intros [= <- <-]. rewrite !chars_string, !strip_idempotent.
  split; [|split; [reflexivity|split; [reflexivity|]]].
  - intros Hin. apply strip_in in Hin.
    pose proof (before_first_kept not_equals_sign (c :: rest)) as Hkept.
    apply (proj1 (Forall_forall _ _) Hkept) in Hin.
    discriminate Hin.
  - intros rest' Hkey. cbn [before_first] in Hkey.
    destruct (not_equals_sign c); [|discriminate Hkey].
    destruct (strip_cons c (before_first not_equals_sign rest) Hhead)
      as [s' Hs]. rewrite Hs in Hkey. injection Hkey as -> _. contradiction.
Qed.

(** X12. In the dict that [read_config] returns, no key holds a [=] or
    starts with [#], and neither a key nor a value has white space at
    its ends. *)
Theorem read_config_keys (text : string) (d : gmap string string)
    (key value : string) :
  read_config text "=" = Ok d ->
  d !! key = Some value ->
  ("="%char ∉ chars key)
  /\ strip (chars key) = chars key
  /\ strip (chars value) = chars value
  /\ (forall rest, chars key <> "#"%char :: rest).
Proof.
  unfold read_config. rewrite read_config_loop_pairs. intros [= <-] Hlookup.
  apply dict_of_pairs_lookup in Hlookup.
  apply list_elem_of_omap in Hlookup as (line & _ & Hline).
  apply (config_pair_shape line), Hline.
Qed.

Lemma read_config_keys_witness :
  ("="%char ∉ chars "d4j.classes.relevant")
  /\ strip (chars "d4j.classes.relevant") = chars "d4j.classes.relevant"
  /\ strip (chars "org.Foo=Bar") = chars "org.Foo=Bar"
  /\ (forall rest, chars "d4j.classes.relevant" <> "#"%char :: rest).
Proof.
  apply (read_config_keys example_config
           {[ "pid" := "Math"; "d4j.classes.relevant" := "org.Foo=Bar" ]}
           "d4j.classes.relevant" "org.Foo=Bar").
  - vm_compute. reflexivity.
  - vm_compute. reflexivity.
Defined.

Lemma read_config_line_total (separator : string) (res : gmap string string)
    (line : list ascii) :
  separator <> "" ->
  exists res', read_config_line separator res line = Ok res'.
Proof.
  intros Hsep. unfold read_config_line.
  destruct (_ || _); [eauto|]. unfold split_maxsplit1.
  destruct (chars separator) as [|x sep] eqn:Hchars.
  { exfalso. apply Hsep. destruct separator; [reflexivity|discriminate]. }
  destruct (split_first (x :: sep) (strip (strip line))) as [[before after]|];
    cbn; eauto.
Qed.

Lemma read_config_loop_total (separator : string) (res : gmap string string)
    (lines : list (list ascii)) :
  separator <> "" ->
  exists res', read_config_loop separator res lines = Ok res'.
Proof.
  intros Hsep. revert res.
  induction lines as [|line lines IH]; intros res; cbn; [eauto|].
  destruct (read_config_line_total separator res line Hsep) as [res' ->].
  cbn. apply IH.
Qed.

Lemma read_config_line_empty_separator (res : gmap string string)
    (line : list ascii) :
  read_config_line "" res line
  = match strip line with
    | [] => Ok res
    | c :: _ =>
        if Ascii.eqb c "#" then Ok res
        else Raise (ValueError "empty separator")
    end.
Proof.
  unfold read_config_line. destruct (strip line) as [|c rest]; [reflexivity|].
  cbn [length Nat.eqb orb].
  change (starts_with (chars "#") (c :: rest)) with (Ascii.eqb "#" c && true).
  rewrite andb_true_r, (Ascii.eqb_sym c).
  destruct (Ascii.eqb "#" c); reflexivity.
Qed.

(** X13. [read_config] raises only for an empty separator: with any other
    separator it returns a dict; with the empty one it raises
    [ValueError] as soon as a line is neither blank nor a comment, and
    returns the empty dict when there is no such line. *)
Theorem read_config_separator (text separator : string) :
  (separator <> "" -> exists d, read_config text separator = Ok d)
  /\ (Exists candidate (readlines (chars text)) ->
      read_config text "" = Raise (ValueError "empty separator"))
  /\ (Forall (fun line => ~ candidate line) (readlines (chars text)) ->
      read_config text "" = Ok ∅).
Proof.
  unfold read_config. split; [apply read_config_loop_total|].
  generalize (∅ : gmap string string) as res.
  induction (readlines (chars text)) as [|line lines IH]; intros res.
  - split; [intros H; inversion H|reflexivity].
  - cbn [read_config_loop]. rewrite read_config_line_empty_separator.
    destruct (IH res) as [IHraise IHok].
    destruct (strip line) as [|c rest] eqn:Hline.
    + cbn [bind]. split.
      * intros H. apply Exists_cons in H as [H|H]; [|auto].
        unfold candidate in H. rewrite Hline in H. contradiction.
      * intros H. apply Forall_cons in H as [_ H]. auto.
    + destruct (Ascii.eqb_spec c "#") as [->|Hc]; cbn [bind].
      * split.
        -- intros H. apply Exists_cons in H as [H|H]; [|auto].
           unfold candidate in H. rewrite Hline in H. contradiction.
        -- intros H. apply Forall_cons in H as [_ H]. auto.
      * split; [reflexivity|].
        intros H. apply Forall_cons in H as [H _].
        unfold candidate in H. rewrite Hline in H. contradiction.
Qed.

Lemma read_config_separator_witness :
  read_config example_config "" = Raise (ValueError "empty separator").
Proof.
  apply (proj1 (proj2 (read_config_separator example_config ""))).
  apply Exists_cons. right. apply Exists_cons. left.
  vm_compute. discriminate.
Defined.

(** ** When the parsers return *)

Section ParserResults.
Context {PA : PyArith}.

Lemma bool_mapper_Ok (key : option string) (b : bool) :
  bool_mapper key = Ok b ->
  key = Some (if b then "true" else "false").
Proof.
  unfold bool_mapper. destruct key as [k|]; [|discriminate].
  destruct (String.eqb_spec k "true") as [->|_]; [intros [= <-]; reflexivity|].
  destruct (String.eqb_spec k "false") as [->|_]; [intros [= <-]; reflexivity|].
  discriminate.
Qed.

Lemma bool_mapper_unknown (key : option string) :
  key <> Some "true" -> key <> Some "false" ->
  bool_mapper key = Raise (KeyError key).
Proof.
  intros Ht Hf. unfold bool_mapper. destruct key as [k|]; [|reflexivity].
  destruct (String.eqb_spec k "true") as [->|_]; [contradiction|].
  destruct (String.eqb_spec k "false") as [->|_]; [contradiction|].
  reflexivity.
Qed.

Lemma Pit_count_known (children rest : list element)
    (killed_count live_count : Z) :
  Forall detected_known children ->
  exists k l,
    0 <= k /\ 0 <= l
    /\ Pit_count (children ++ rest) killed_count live_count
       = Pit_count rest (killed_count + k) (live_count + l).
Proof.
  intros Hknown. revert killed_count live_count.
  induction Hknown as [|child children Hchild _ IH]; intros kc lc.
  - exists 0, 0. rewrite !Z.add_0_r. repeat split; lia.
  - cbn [app Pit_count]. destruct Hchild as [Hc|Hc]; rewrite Hc; cbn.
    + destruct (IH (kc + 1) lc) as (k & l & Hk & Hl & ->).
      exists (1 + k), l. rewrite Z.add_assoc. repeat split; lia.
    + destruct (IH kc (lc + 1)) as (k & l & Hk & Hl & ->).
      exists k, (1 + l). rewrite Z.add_assoc. repeat split; lia.
Qed.

Lemma Pit_count_Ok (children : list element)
    (killed_count live_count k l : Z) :
  Pit_count children killed_count live_count = Ok (k, l) ->
  Forall detected_known children
  /\ killed_count <= k /\ live_count <= l
  /\ (children <> [] -> killed_count + live_count < k + l).
Proof.
  revert killed_count live_count.
  induction children as [|child children IH]; intros kc lc; cbn [Pit_count].
  - intros [= <- <-]. repeat split; [constructor|lia|lia|]. contradiction.
  - destruct (bool_mapper (get child "detected")) as [b|] eqn:Hb;
      [|discriminate].
    apply bool_mapper_Ok in Hb. cbn [bind].
    destruct b; intros H; apply IH in H as (Hknown & Hk & Hl & _);
      (split; [constructor; [unfold detected_known; auto|exact Hknown]|]);
      repeat split; lia.
Qed.

(** X14. The parser of Pit raises [KeyError] for the first child of the
    root whose [detected] attribute is missing or is neither "true" nor
    "false", with this value as the key, whatever the children after
    it. *)
Theorem Pit_first_unknown_child (tree : element)
    (known rest : list element) (child : element) :
  children_of tree = known ++ child :: rest ->
  Forall detected_known known ->
  get child "detected" <> Some "true" ->
  get child "detected" <> Some "false" ->
  Pit_get_mutation_score tree = Raise (KeyError (get child "detected")).
Proof.
  intros Hchildren Hknown Ht Hf. unfold Pit_get_mutation_score.
  rewrite Hchildren.
  destruct (Pit_count_known known (child :: rest) 0 0 Hknown)
    as (k & l & _ & _ & ->).
  cbn [Pit_count]. rewrite bool_mapper_unknown by assumption. reflexivity.
Qed.

(** X15. The parser of Pit returns a record exactly when the root has a
    child and every child has a [detected] attribute "true" or "false";
    without a child it raises [ZeroDivisionError]. *)
Theorem Pit_returns_iff `{!PyArithLaws PA} (tree : element) :
  ((exists r, Pit_get_mutation_score tree = Ok r)
   <-> children_of tree <> [] /\ Forall detected_known (children_of tree))
  /\ (children_of tree = [] ->
      Pit_get_mutation_score tree = Raise ZeroDivisionError).
Proof.
  split; [split|].
  - intros [r Hr]. unfold Pit_get_mutation_score in Hr.
    destruct (children_of tree) as [|child children]; [discriminate Hr|].
    split; [discriminate|].
    destruct (Pit_count (child :: children) 0 0) as [[k l]|] eqn:Hcount;
      [|discriminate].
    apply Pit_count_Ok in Hcount as (Hknown & _). exact Hknown.
  - intros [Hne Hknown].
    destruct (Pit_count_known (children_of tree) [] 0 0 Hknown)
      as (k & l & Hk & Hl & Hcount).
    rewrite app_nil_r in Hcount. cbn [Pit_count] in Hcount.
    pose proof Hcount as Hcount'.
    apply Pit_count_Ok in Hcount' as (_ & _ & _ & Hpos).
    specialize (Hpos Hne).
    unfold Pit_get_mutation_score. rewrite Hcount. cbn [bind].
    destruct (py_truediv_counts (0 + k) (0 + k + (0 + l)))
      as (q & -> & _); [lia|lia|].
    cbn. eauto.
  - intros Hnil. unfold Pit_get_mutation_score. rewrite Hnil. reflexivity.
Qed.

(** X16. The parser of Major returns a record exactly when [kill.csv] has
    no row or at least one mutant is described; with rows in [kill.csv]
    and no described mutant it raises [ZeroDivisionError]. *)
Theorem Major_returns_iff `{!PyArithLaws PA} (kill_df : list kill_row)
    (mutants_df : list mutant_row) :
  ((exists r, Major_get_mutation_score kill_df mutants_df = Ok r)
   <-> kill_df = [] \/ mutants_df <> [])
  /\ (kill_df <> [] -> mutants_df = [] ->
      Major_get_mutation_score kill_df mutants_df = Raise ZeroDivisionError).
Proof.
  assert (kill_df <> [] ->
          Major_get_mutation_score kill_df [] = Raise ZeroDivisionError)
    as Hzero.
  { intros Hkill. unfold Major_get_mutation_score.
    destruct kill_df; [contradiction|]. reflexivity. }
  split; [split|].
  - intros [r Hr]. destruct kill_df as [|k kill_df]; [auto|].
    right. intros ->. rewrite Hzero in Hr by discriminate. discriminate.
  - intros [->|Hmut]; [eexists; reflexivity|].
    destruct kill_df as [|k kill_df]; [eexists; reflexivity|].
    destruct (Major_joined (k :: kill_df) mutants_df) as (r & q & Hr & _);
      [discriminate| |eauto].
    destruct (join_length mutants_df (k :: kill_df)) as [Hle _].
    destruct mutants_df; [contradiction|].
    destruct (join _ _); [cbn in Hle; lia|discriminate].
  - intros Hkill ->. apply Hzero, Hkill.
Qed.

(** X17. The parser of Jumble returns a record exactly when the
    transcript has a region between the markers and at least one mutant
    in it; with a region and no mutant it raises [ZeroDivisionError]. *)
Theorem Jumble_returns_iff `{!PyArithLaws PA} (text : string) :
  ((exists r, Jumble_get_mutation_score text = Ok r)
   <-> exists region,
         Jumble_region (chars text) = Some region
         /\ (0 < snd (subn live_mutant_pattern region)
                 + length (non_space (fst (subn live_mutant_pattern region))))%nat)
  /\ (forall region,
        Jumble_region (chars text) = Some region ->
        snd (subn live_mutant_pattern region) = O ->
        non_space (fst (subn live_mutant_pattern region)) = [] ->
        Jumble_get_mutation_score text = Raise ZeroDivisionError).
Proof.
  split; [split|].
  - intros [r Hr]. unfold Jumble_get_mutation_score in Hr.
    destruct (Jumble_region (chars text)) as [region|].
    2:{ destruct (search _ _) as [[[? ?] ?]|]; discriminate. }
    exists region. split; [reflexivity|].
    destruct (subn live_mutant_pattern region) as [killed_text n].
    cbn [fst snd]. rewrite sub_whitespace in Hr.
    apply scored_record in Hr as (q & Hall & _). lia.
  - intros (region & Hregion & Hpos).
    destruct (Jumble_score_of_region text region Hregion Hpos)
      as (r & q & Hr & _). eauto.
  - intros region Hregion Hlive Hkilled. unfold Jumble_get_mutation_score.
    rewrite Hregion.
    destruct (subn live_mutant_pattern region) as [killed_text n].
    cbn [fst snd] in *. rewrite sub_whitespace, Hkilled, Hlive. reflexivity.
Qed.

(** X18. The counts of every record of Jumble, Major and Pit are in
    range: [0 <= killed <= all] and [0 <= live <= all]. *)
Theorem counts_in_range (self : Tool) (out : tool_output (kind self))
    (r : score_dict) :
  kind self <> Judy ->
  get_mutation_score_dict self out = Ok r ->
  0 <= killed r <= all r /\ 0 <= live r <= all r.
Proof.
  destruct self as [k dir cls]. unfold get_mutation_score_dict.
  cbn [kind]. intros Hkind.
  destruct k; [contradiction| | |]; cbn [tool_output] in out.
  - unfold Jumble_get_mutation_score.
    destruct (Jumble_region _) as [region|].
    2:{ destruct (search _ _) as [[[? ?] ?]|]; discriminate. }
    destruct (subn _ _) as [killed_text n].
    intros H. apply scored_record in H as (q & _ & _ & ->). cbn. lia.
  - destruct out as [kill_df mutants_df]. cbn [fst snd].
    unfold Major_get_mutation_score.
    destruct kill_df as [|k0 kill_df]; cbn [length Nat.eqb].
    + intros [= <-]. cbn. lia.
    + intros H. apply scored_record in H as (q & _ & _ & ->). cbn.
      pose proof (count_live_le (join mutants_df (k0 :: kill_df))) as Hle.
      unfold count_live in Hle. lia.
  - unfold Pit_get_mutation_score.
    destruct (Pit_count _ _ _) as [[kc lc]|] eqn:Hcount; cbn; [|discriminate].
    apply Pit_count_Ok in Hcount as (_ & Hk & Hl & _).
    intros H. apply scored_record in H as (q & _ & _ & ->). cbn. lia.
Qed.

End ParserResults.

Lemma Pit_first_unknown_child_witness :
  Pit_get_mutation_score (PA := exact_arith) broken_mutations
  = Raise (KeyError (get undetected_mutation "detected")).
Proof.
  apply (Pit_first_unknown_child (PA := exact_arith) broken_mutations
           [mutation "true"] [mutation "maybe"] undetected_mutation).
  - reflexivity.
  - constructor; [left; reflexivity|constructor].
  - discriminate.
  - discriminate.
Defined.

Lemma Pit_returns_iff_witness :
  exists r : score_dict,
    Pit_get_mutation_score (PA := exact_arith) six_mutations = Ok r.
Proof.
  apply (proj2 (proj1 (Pit_returns_iff (PA := exact_arith) six_mutations))).
  split; [discriminate|].
  repeat (constructor; [first [left; reflexivity | right; reflexivity]|]).
  constructor.
Defined.

Lemma Major_returns_iff_witness :
  Major_get_mutation_score (PA := exact_arith) two_live []
  = Raise ZeroDivisionError.
Proof.
  apply (proj2 (Major_returns_iff (PA := exact_arith) two_live []));
    [discriminate|reflexivity].
Defined.

Lemma Jumble_returns_iff_witness :
  Jumble_get_mutation_score (PA := exact_arith) (transcript no_mutant)
  = Raise ZeroDivisionError.
Proof.
  apply (proj2 (Jumble_returns_iff (PA := exact_arith) (transcript no_mutant))
           (chars no_mutant));
    vm_compute; reflexivity.
Defined.

Lemma counts_in_range_witness :
  0 <= killed four_of_six <= all four_of_six
  /\ 0 <= live four_of_six <= all four_of_six.
Proof.
  apply (counts_in_range (PA := exact_arith) (new_tool Pit "/project" "org.Foo")
           six_mutations four_of_six).
  - discriminate.
  - reflexivity.
Defined.

(** ** The registry, again *)

(** X19. [get_tool] returns a tool exactly for the names of the four
    kinds, and the tool has the kind of this name, the project directory
    and the class it was asked for. *)
Theorem get_tool_returns_iff (requested project_dir class_under_mutation : string)
    (tool : Tool) :
  get_tool requested project_dir class_under_mutation = Ok tool
  <-> exists k,
        tool_name k = requested
        /\ tool = new_tool k project_dir class_under_mutation.
Proof.
  split.
  - unfold get_tool, valid_tools. cbn [map lookup_key tool_name].
    repeat match goal with
           | |- context [String.eqb ?a requested] =>
               destruct (String.eqb_spec a requested) as [<-|_];
               [intros [= <-];
                first [exists Judy; split; reflexivity
                      |exists Jumble; split; reflexivity
                      |exists Major; split; reflexivity
                      |exists Pit; split; reflexivity]|]
           end.
    discriminate.
  - intros (k & <- & ->). destruct k; reflexivity.
Qed.

Lemma get_tool_returns_iff_witness :
  get_tool "major" "/project" "org.Foo"
  = Ok (new_tool Major "/project" "org.Foo").
Proof.
  apply (proj2 (get_tool_returns_iff "major" "/project" "org.Foo"
                  (new_tool Major "/project" "org.Foo"))).
  exists Major. split; reflexivity.
Defined.

(** ** [Tool.get_mutation_score] *)

Lemma chars_append (a b : string) : chars (a +:+ b) = chars a ++ chars b.
Proof.
  induction a as [|c a IH]; [reflexivity|].
  change (chars (String c a +:+ b)) with (c :: chars (a +:+ b)).
  rewrite IH. reflexivity.
Qed.

Lemma endswith_append (s suffix : list ascii) :
  endswith (s ++ suffix) suffix = true.
Proof. unfold endswith. rewrite reverse_app. apply starts_with_app. Qed.

(** X20. When [Tool.get_mutation_score] writes a document, its name ends
    in [.json]: the name asked for if that ends in [.json], else this
    name followed by [.json]; the dict written is the record of the
    parser and the number returned is its [score]. *)
Theorem get_mutation_score_document {PA : PyArith} (self : Tool)
    (out : tool_output (kind self)) (requested file : string)
    (number : pynum) (document : score_dict) :
  get_mutation_score self out (Some requested)
  = Ok (number, Some (file, document)) ->
  endswith (chars file) (chars ".json") = true
  /\ (file = requested \/ file = requested +:+ ".json")
  /\ (endswith (chars requested) (chars ".json") = true -> file = requested)
  /\ get_mutation_score_dict self out = Ok document
  /\ number = score document.
Proof.
  unfold get_mutation_score.
  destruct (get_mutation_score_dict self out) as [record|]; [|discriminate].
  cbn [bind]. destruct (String.eqb requested ""); [discriminate|].
  destruct (endswith (chars requested) (chars ".json")) eqn:Hends;
    cbn [negb]; intros [= <- <- <-].
  - auto 10.
  - rewrite chars_append, endswith_append. split; [reflexivity|].
    split; [auto|]. split; [discriminate|auto].
Qed.

Lemma get_mutation_score_document_witness :
  endswith (chars "mutation_score_A12_dev.json") (chars ".json") = true
  /\ ("mutation_score_A12_dev.json" = "mutation_score_A12_dev"
      \/ "mutation_score_A12_dev.json" = "mutation_score_A12_dev" +:+ ".json")
  /\ (endswith (chars "mutation_score_A12_dev") (chars ".json") = true ->
      "mutation_score_A12_dev.json" = "mutation_score_A12_dev")
  /\ get_mutation_score_dict (new_tool Pit "/project" "org.Foo") six_mutations
     = Ok four_of_six
  /\ @PyFloat exact_arith (667 # 1000)%Q = score four_of_six.
Proof.
  apply (get_mutation_score_document (PA := exact_arith)
           (new_tool Pit "/project" "org.Foo") six_mutations
           "mutation_score_A12_dev" "mutation_score_A12_dev.json"
           (@PyFloat exact_arith (667 # 1000)%Q) four_of_six).
  reflexivity.
Defined.

(** ** [Project.get_student_names] *)

Lemma match_here_Lit (c : ascii) (p : pattern) (s : list ascii) :
  match_here (Lit c :: p) s = single (Ascii.eqb c) (match_here p) s.
Proof. reflexivity. Qed.

Lemma match_here_One (cls : ascii -> bool) (p : pattern) (s : list ascii) :
  match_here (One cls :: p) s = single cls (match_here p) s.
Proof. reflexivity. Qed.

Lemma match_here_Plus (cls : ascii -> bool) (p : pattern) (s : list ascii) :
  match_here (Plus cls :: p) s
  = match run_length cls s with
    | O => None
    | S extra => backtrack (match_here p) 1 extra s
    end.
Proof. reflexivity. Qed.

(** A repetition matches a run of its class, not empty. *)
Lemma match_here_Plus_Some (cls : ascii -> bool) (p : pattern)
    (s rest : list ascii) (segs : list (list ascii)) :
  match_here (Plus cls :: p) s = Some (segs, rest) ->
  exists run s' segs',
    s = run ++ s' /\ run <> [] /\ Forall (fun c => cls c = true) run
    /\ segs = run :: segs' /\ match_here p s' = Some (segs', rest).
Proof.
  rewrite match_here_Plus.
  destruct (run_length cls s) as [|extra] eqn:Hrun; [discriminate|].
  intros H. apply backtrack_Some in H as (n & segs' & Hn & -> & Hp).
  exists (take n s), (drop n s), segs'.
  pose proof (run_length_le cls s) as Hle. rewrite Hrun in Hle.
  split; [symmetry; apply take_drop|]. split; [|split; [|auto]].
  - intros E. apply (f_equal length) in E. rewrite length_take in E.
    cbn [length] in E. lia.
  - apply run_length_take. lia.
Qed.

(** A run that ends where its class ends is matched whole when the rest
    of the pattern matches what follows. *)
Lemma match_here_Plus_run (cls : ascii -> bool) (p : pattern)
    (run s' rest : list ascii) (segs : list (list ascii)) :
  run <> [] ->
  Forall (fun c => cls c = true) run ->
  match s' with
  | [] => True
  | c :: _ => cls c = false
  end ->
  match_here p s' = Some (segs, rest) ->
  match_here (Plus cls :: p) (run ++ s') = Some (run :: segs, rest).
Proof.
  intros Hne Hrun Hs' Hp. rewrite match_here_Plus.
  rewrite (run_length_app cls run s' Hrun Hs').
  destruct run as [|c run]; [contradiction|]. cbn [length].
  rewrite (backtrack_first _ 1 (length run) _ rest segs).
  - rewrite take_app_length' by reflexivity. reflexivity.
  - rewrite drop_app_length' by reflexivity. exact Hp.
Qed.

Lemma single_eqb_Some (c : ascii) (p : pattern) (s rest : list ascii)
    (segs : list (list ascii)) :
  match_here (Lit c :: p) s = Some (segs, rest) ->
  exists s' segs',
    s = c :: s' /\ segs = [c] :: segs' /\ match_here p s' = Some (segs', rest).
Proof.
  rewrite match_here_Lit. intros H.
  apply single_Some in H as (x & s' & segs' & -> & Hx & -> & Hp).
  apply Ascii.eqb_eq in Hx as <-. eauto.
Qed.

Lemma string_is_chars_id (l : list ascii) (s : string) :
  chars s = l -> string_of_list_ascii l = s.
Proof. intros <-. apply string_of_list_ascii_of_string. Qed.

Lemma student_of_shape (file : list ascii) (id : string) :
  student_of (string_of_list_ascii file) = Some id
  <-> student_file file (chars id).
Proof.
  unfold student_of, student_pattern. rewrite chars_string. split.
  - destruct (match_here _ file) as [[segs rest]|] eqn:Hm; [|discriminate].
    apply match_here_Plus_Some in Hm
      as (first & s1 & segs1 & -> & Hfirst & Hfirst' & -> & Hm).
    apply single_eqb_Some in Hm as (s2 & segs2 & -> & -> & Hm).
    apply match_here_Plus_Some in Hm
      as (last & s3 & segs3 & -> & Hlast & Hlast' & -> & Hm).
    apply single_eqb_Some in Hm as (s4 & segs4 & -> & -> & Hm).
    rewrite match_here_One in Hm.
    apply single_Some in Hm as (letter & s5 & segs5 & -> & Hletter & -> & Hm).
    rewrite match_here_last_Plus in Hm.
    destruct (run_length is_digit s5) as [|extra] eqn:Hrun; [discriminate|].
    injection Hm as <- <-. intros [= <-].
    change (chars (String letter (string_of_list_ascii (take (S extra) s5))))
      with (letter :: chars (string_of_list_ascii (take (S extra) s5))).
    rewrite chars_string.
    pose proof (run_length_le is_digit s5) as Hle. rewrite Hrun in Hle.
    exists first, last, letter, (take (S extra) s5), (drop (S extra) s5).
    rewrite take_drop. repeat split; try assumption.
    + intros E. apply (f_equal length) in E. rewrite length_take in E.
      cbn [length] in E. lia.
    + apply run_length_take. lia.
    + rewrite <- Hrun. apply run_length_drop.
  - intros (first & last & letter & digits & rest & -> & Hid & Hfirst
            & Hfirst' & Hlast & Hlast' & Hletter & Hdigits & Hdigits' & Hrest).
    assert (match_here [Plus is_digit] (digits ++ rest)
            = Some ([digits], rest)) as H6.
    { apply match_here_Plus_run; try assumption. reflexivity. }
    assert (match_here [One is_alpha; Plus is_digit] (letter :: digits ++ rest)
            = Some ([[letter]; digits], rest)) as H5.
    { rewrite match_here_One. cbn [single]. rewrite Hletter, H6. reflexivity. }
    assert (match_here [Lit "_"; One is_alpha; Plus is_digit]
              ("_"%char :: letter :: digits ++ rest)
            = Some ([["_"%char]; [letter]; digits], rest)) as H4.
    { rewrite match_here_Lit. cbn [single]. rewrite Ascii.eqb_refl, H5.
      reflexivity. }
    assert (match_here [Plus is_alpha; Lit "_"; One is_alpha; Plus is_digit]
              (last ++ "_"%char :: letter :: digits ++ rest)
            = Some ([last; ["_"%char]; [letter]; digits], rest)) as H3.
    { apply match_here_Plus_run; try assumption. reflexivity. }
    assert (match_here
              [Lit "_"; Plus is_alpha; Lit "_"; One is_alpha; Plus is_digit]
              ("_"%char :: last ++ "_"%char :: letter :: digits ++ rest)
            = Some ([["_"%char]; last; ["_"%char]; [letter]; digits], rest))
      as H2.
    { rewrite match_here_Lit. cbn [single]. rewrite Ascii.eqb_refl, H3.
      reflexivity. }
    rewrite (match_here_Plus_run is_alpha _ first
               ("_"%char :: last ++ "_"%char :: letter :: digits ++ rest)
               rest _ Hfirst Hfirst' eq_refl H2).
    f_equal. apply string_is_chars_id. exact Hid.
Qed.

(** X21. [Project.get_student_names] yields exactly the ids of the files
    named [first_last_<letter><digits>...], the two names made of
    letters and the digits followed by no further digit: the id is the
    letter with all its digits; the other files are passed over. *)
Theorem get_student_names_yields (files : list string) (id : string) :
  id ∈ get_student_names files
  <-> exists file, file ∈ files /\ student_file (chars file) (chars id).
Proof.
  unfold get_student_names. rewrite list_elem_of_omap.
  split; intros (file & Hin & H); exists file; (split; [exact Hin|]).
  - apply student_of_shape. rewrite string_of_list_ascii_of_string. exact H.
  - apply student_of_shape in H.
    rewrite string_of_list_ascii_of_string in H. exact H.
Qed.

Lemma get_student_names_yields_witness :
  "a12" ∈ get_student_names ["README.java"; "mario_rossi_a12.java"].
Proof.
  apply (proj2 (get_student_names_yields
                  ["README.java"; "mario_rossi_a12.java"] "a12")).
  exists "mario_rossi_a12.java". split; [set_solver|].
  exists (chars "mario"), (chars "rossi"), "a"%char, (chars "12"),
    (chars ".java").
  repeat split; try discriminate; try reflexivity;
    repeat (constructor; [reflexivity|]); constructor.
Defined.

(** ** Major: rows of [kill.csv] without a description *)

Section MajorRows.
Context {PA : PyArith}.

Lemma join_more_rows (mutants_df : list mutant_row)
    (kill_df other : list kill_row) :
  Forall (fun k => kill_MutantNo k ∉ map MutantNo mutants_df) other ->
  join mutants_df (kill_df ++ other) = join mutants_df kill_df.
Proof.
  intros Hother. unfold join.
  induction mutants_df as [|m mutants_df IH]; [reflexivity|].
  cbn [flat_map]. rewrite filter_app.
  assert (filter (fun k => kill_MutantNo k = MutantNo m) other = []) as ->.
  { apply no_partner. eapply Forall_impl; [exact Hother|].
    intros k Hk Heq. apply Hk. rewrite Heq. cbn [map]. left. }
  rewrite app_nil_r. f_equal. apply IH.
  eapply Forall_impl; [exact Hother|].
  intros k Hk Hin. apply Hk. cbn [map]. right. exact Hin.
Qed.

(** X22. With rows in [kill.csv], further rows for mutants that are not
    described change nothing in what the parser of Major returns: the
    left join drops them. *)
Theorem Major_ignores_other_rows (kill_df other : list kill_row)
    (mutants_df : list mutant_row) :
  kill_df <> [] ->
  Forall (fun k => kill_MutantNo k ∉ map MutantNo mutants_df) other ->
  Major_get_mutation_score (kill_df ++ other) mutants_df
  = Major_get_mutation_score kill_df mutants_df.
Proof.
  intros Hkill Hother. unfold Major_get_mutation_score.
  rewrite join_more_rows by exact Hother.
  destruct kill_df as [|k kill_df]; [contradiction|]. reflexivity.
Qed.

End MajorRows.

Lemma Major_ignores_other_rows_witness :
  Major_get_mutation_score (PA := exact_arith)
    (two_live ++ [ {| kill_MutantNo := 9; Status := Some "LIVE" |} ])
    five_mutants
  = Major_get_mutation_score two_live five_mutants.
Proof.
  apply (Major_ignores_other_rows (PA := exact_arith) two_live
           [ {| kill_MutantNo := 9; Status := Some "LIVE" |} ] five_mutants).
  - discriminate.
  - constructor; [|constructor]. cbn. intros H.
    repeat (apply elem_of_cons in H as [H|H]; [discriminate H|]).
    inversion H.
Defined.

(** ** [read_config]: one more line *)

Lemma readlines_nonempty (s : list ascii) : s <> [] -> readlines s <> [].
Proof.
  destruct s as [|c s]; [contradiction|]. intros _. cbn.
  destruct (Ascii.eqb c "010"); [discriminate|].
  destruct (readlines s); discriminate.
Qed.

Lemma readlines_app (a b : list ascii) :
  readlines (a ++ "010"%char :: b)
  = readlines (a ++ ["010"%char]) ++ readlines b.
Proof.
  induction a as [|c a IH]; [reflexivity|]. cbn [app readlines].
  rewrite IH. destruct (Ascii.eqb c "010"); [reflexivity|].
  pose proof (readlines_nonempty (a ++ ["010"%char])) as Hne.
  destruct (readlines (a ++ ["010"%char])) as [|line lines].
  - exfalso. apply Hne; [|reflexivity]. destruct a; discriminate.
  - reflexivity.
Qed.

Lemma readlines_one_line (line : list ascii) :
  line <> [] -> "010"%char ∉ line -> readlines line = [line].
Proof.
  induction line as [|c line IH]; [contradiction|]. intros _ Hnot. cbn.
  destruct (Ascii.eqb_spec c "010") as [->|_].
  - exfalso. apply Hnot. left.
  - destruct line as [|c' line]; [reflexivity|].
    rewrite IH; [reflexivity|discriminate|].
    intros H. apply Hnot. right. exact H.
Qed.

Lemma read_config_loop_app (lines more : list (list ascii))
    (res : gmap string string) :
  read_config_loop "=" res (lines ++ more)
  = (do res' <- read_config_loop "=" res lines;
     read_config_loop "=" res' more).
Proof.
  revert res. induction lines as [|line lines IH]; intros res; [reflexivity|].
  cbn [app read_config_loop].
  destruct (read_config_line "=" res line) as [res'|]; [|reflexivity].
  cbn [bind]. apply IH.
Qed.

(** X23. One more line at the end of a config file whose last line is
    complete: when the line gives a pair, [read_config] returns the dict
    of the file with this key set to this value, replacing an earlier
    value of the key; when it gives none, the dict of the file. *)
Theorem read_config_one_more_line (text line : string)
    (d : gmap string string) :
  "010"%char ∉ chars line ->
  read_config (text +:+ String "010" "") "=" = Ok d ->
  read_config (text +:+ String "010" line) "="
  = Ok match config_pair (chars line) with
       | Some (key, value) => <[key := value]> d
       | None => d
       end.
Proof.
  intros Hline. unfold read_config. rewrite !chars_append.
  change (chars (String "010" line)) with ("010"%char :: chars line).
  change (chars (String "010" "")) with ["010"%char].
  intros Hd. rewrite readlines_app, read_config_loop_app, Hd. cbn [bind].
  destruct (chars line) as [|c rest] eqn:Hchars; [reflexivity|].
  rewrite readlines_one_line by (discriminate || exact Hline).
  cbn [read_config_loop]. rewrite read_config_line_pair. reflexivity.
Qed.

Lemma read_config_one_more_line_witness :
  read_config ("pid=Lang" +:+ String "010" " pid = Math ") "="
  = Ok match config_pair (chars " pid = Math ") with
       | Some (key, value) => <[key := value]> {[ "pid" := "Lang" ]}
       | None => {[ "pid" := "Lang" ]}
       end.
Proof.
  apply (read_config_one_more_line "pid=Lang" " pid = Math "
           {[ "pid" := "Lang" ]}).
  - no_bracket_in.
  - vm_compute. reflexivity.
Defined.
